(** * dir_tree_builder: a shallow embedding of [dir_tree_builder.py]

    The development follows the layout of the Python module:
    utility functions ([human_readable_size], [human_readable_time]),
    core functions ([get_file_info], [get_dir_tree]), the JSON output
    ([dir_tree_to_json]) and the script entry point.  The file system is an oracle answering the
    [pathlib] queries the module issues; logging is a list of records
    written in order; exceptions are an explicit outcome.  Strings are
    strings of code points below 256. *)

From Stdlib Require Import ZArith List String Ascii Bool Lia.
From Stdlib Require Import Sorted DecimalString DecimalZ.
Import ListNotations.

#[local] Set Warnings "-register-all".


Local Open Scope string_scope.
Local Open Scope list_scope.
Local Open Scope Z_scope.

(** String concatenation, the [+] of Python [str] and the joints of an
    f-string. *)
Infix "+++" := String.append (right associativity, at level 60).

(* ------------------------------------------------------------------ *)
(** ** Python scalars *)
(* ------------------------------------------------------------------ *)

(** [str(n)] and [f"{n}"] for a Python [int]. *)
Definition str_of_int (n : Z) : string :=
  NilZero.string_of_int (Z.to_int n).

(** A finite binary float, as the exact value [fmant * 2 ^ fexp].  Only
    [human_readable_size] computes with floats; every operation it uses
    (conversion of an [int], division by [1024.0], comparison with
    [1024], formatting with [.1f]) is exact on this representation. *)
Record pyfloat := mkfloat { fmant : Z; fexp : Z }.

(** Round-half-to-even of [n / 2 ^ s], for [0 <= n] and [0 < s]. *)
Definition round_shift (n s : Z) : Z :=
  let q := Z.shiftr n s in
  let r := Z.land n (Z.ones s) in
  let half := Z.shiftl 1 (s - 1) in
  if (half <? r) || ((r =? half) && Z.odd q) then q + 1 else q.

(** [float(n)]: an [int] below [2^53] converts exactly, a larger one is
    rounded to 53 significant bits, ties to even.  File sizes are far
    below the float range, so the conversion never overflows. *)
Definition float_of_int (n : Z) : pyfloat :=
  let a := Z.abs n in
  if a <? 2 ^ 53 then mkfloat n 0
  else
    let s := Z.log2 a - 52 in
    mkfloat (Z.sgn n * round_shift a s) s.

(** [x / 1024.0]: a division by a power of two only moves the exponent. *)
Definition fdiv_1024 (x : pyfloat) : pyfloat :=
  mkfloat (fmant x) (fexp x - 10).

(** [x < k] for a float [x] and an [int] [k]. *)
Definition float_ltb (x : pyfloat) (k : Z) : bool :=
  if 0 <=? fexp x then fmant x * 2 ^ fexp x <? k
  else fmant x <? k * 2 ^ (- fexp x).

(** The number of tenths nearest to [|x|], ties to even: what the format
    [.1f] prints (the conversion is correctly rounded). *)
Definition tenths (x : pyfloat) : Z :=
  let a := 10 * Z.abs (fmant x) in
  if 0 <=? fexp x then a * 2 ^ fexp x
  else round_shift a (- fexp x).

(** [f"{x:.1f}"]. *)
Definition format_1f (x : pyfloat) : string :=
  let t := tenths x in
  (if fmant x <? 0 then "-" else "")
    +++ str_of_int (t / 10) +++ "." +++ str_of_int (t mod 10).

(* ------------------------------------------------------------------ *)
(** ** Utility functions *)
(* ------------------------------------------------------------------ *)

(** The [for unit in [...]] loop of [human_readable_size]; the value that
    leaves the loop is returned with the label PB as it is. *)
Fixpoint scale_loop (units : list string) (size_bytes : pyfloat) : string :=
  match units with
  | [] => format_1f size_bytes +++ " PB"
  | unit :: rest =>
      let size_bytes := fdiv_1024 size_bytes in
      if float_ltb size_bytes 1024
      then format_1f size_bytes +++ " " +++ unit
      else scale_loop rest size_bytes
  end.

Definition human_readable_size (size_bytes : Z) : string :=
  if size_bytes <? 1024 then str_of_int size_bytes +++ " B"
  else scale_loop ["KB"; "MB"; "GB"; "TB"] (float_of_int size_bytes).


(* ------------------------------------------------------------------ *)
(** ** Paths *)
(* ------------------------------------------------------------------ *)

(** A [pathlib.Path]: whether it starts at the root, and its components. *)
Record Path := mkPath { anchored : bool; parts : list string }.

(** [path.name]: the last component, or the empty string. *)
Definition path_name (p : Path) : string := last (parts p) "".

(** [path / name], as [iterdir] builds its entries. *)
Definition path_child (p : Path) (name : string) : Path :=
  mkPath (anchored p) (parts p ++ [name]).

(** [str(path)]. *)
Definition path_str (p : Path) : string :=
  if anchored p then "/" +++ String.concat "/" (parts p)
  else match parts p with
       | [] => "."
       | _ => String.concat "/" (parts p)
       end.

Fixpoint split_parts (s cur : string) : list string :=
  match s with
  | EmptyString => [cur]
  | String c s' =>
      if Ascii.eqb c "/" then cur :: split_parts s' ""
      else split_parts s' (cur +++ String c "")
  end.

(** [Path(s)]: components are separated by slashes, empty components
    and single dots are dropped. *)
Definition Path_of_str (s : string) : Path :=
  mkPath (String.prefix "/" s)
         (filter (fun c => negb (String.eqb c "" || String.eqb c "."))
                 (split_parts s "")).

(** [str.lower] on the code points below 256. *)
Definition lower_char (c : ascii) : ascii :=
  let n := N_of_ascii c in
  if (((65 <=? n) && (n <=? 90))
      || ((192 <=? n) && (n <=? 222) && negb (n =? 215)))%N
  then ascii_of_N (n + 32) else c.

Fixpoint lower (s : string) : string :=
  match s with
  | EmptyString => EmptyString
  | String c s' => String (lower_char c) (lower s')
  end.

(** [sorted(l, key=key)]: stable, keys compared as Python compares
    strings (by code point). *)
Fixpoint insert_by {A} (key : A -> string) (x : A) (l : list A) : list A :=
  match l with
  | [] => [x]
  | y :: l' =>
      if String.leb (key x) (key y) then x :: y :: l'
      else y :: insert_by key x l'
  end.

Fixpoint sorted {A} (key : A -> string) (l : list A) : list A :=
  match l with
  | [] => []
  | x :: l' => insert_by key x (sorted key l')
  end.

(** The order [sorted] puts a list in. *)
Definition key_le {A} (key : A -> string) (x y : A) : Prop :=
  String.leb (key x) (key y) = true.

(* ------------------------------------------------------------------ *)
(** ** The tree data model *)
(* ------------------------------------------------------------------ *)

(** A Python [dict] with string keys, in insertion order. *)
Definition dict (V : Type) : Type := list (string * V).

(** [d[k] = v]: an existing key keeps its place and takes the new value,
    a new key goes last. *)
Fixpoint dict_set {V} (d : dict V) (k : string) (v : V) : dict V :=
  match d with
  | [] => [(k, v)]
  | (k', v') :: d' =>
      if String.eqb k' k then (k', v) :: d'
      else (k', v') :: dict_set d' k v
  end.

Definition keys {V} (d : dict V) : list string := map fst d.

(** [dict(pairs)]: the pairs are inserted from left to right, so a key
    that comes again keeps its first place and takes the later value. *)
Definition dict_of_pairs {V} (pairs : list (string * V)) : dict V :=
  fold_left (fun d kv => dict_set d (fst kv) (snd kv)) pairs [].

(* ------------------------------------------------------------------ *)
(** ** Exceptions, logging and Python values *)
(* ------------------------------------------------------------------ *)

(** The subclasses of [OSError] the module tells apart. *)
Inductive os_class := PermissionError | FileNotFoundError | OtherOSError.

Inductive exception :=
| TypeError (msg : string)
| ValueError (msg : string)
| OSError (c : os_class) (msg : string).

Inductive level := DEBUG | WARNING.

Definition log_record : Type := level * string.

(** The result of a call: a value, an exception, or no result within the
    recursion budget of the model. *)
Inductive outcome (A : Type) :=
| Return (a : A)
| Raise (e : exception)
| OutOfFuel.

Arguments Return {A} a.
Arguments Raise {A} e.
Arguments OutOfFuel {A}.

(** A computation: the records logged, in order, and the outcome. *)
Definition M (A : Type) : Type := list log_record * outcome A.

Definition ret {A} (a : A) : M A := ([], Return a).

Definition raise {A} (e : exception) : M A := ([], Raise e).

Definition bind {A B} (m : M A) (k : A -> M B) : M B :=
  match snd m with
  | Return a => (fst m ++ fst (k a), snd (k a))
  | Raise e => (fst m, Raise e)
  | OutOfFuel => (fst m, OutOfFuel)
  end.

Definition log (lvl : level) (msg : string) : M unit :=
  ([(lvl, msg)], Return tt).

Notation "x <- m ;; k" := (bind m (fun x => k))
  (at level 61, m at next level, right associativity).
Notation "m ;;; k" := (bind m (fun _ => k))
  (at level 61, right associativity).

(** Python values, as far as the argument checks look at them. *)
Inductive pyval :=
| PyNone
| PyBool (b : bool)
| PyInt (n : Z)
| PyStr (s : string)
| PyPath (p : Path)
| PyLogger
| PyOther (type_name : string) (truth : bool).

(** [type(v)], as an f-string prints it. *)
Definition type_repr (v : pyval) : string :=
  "<class '" +++
  match v with
  | PyNone => "NoneType"
  | PyBool _ => "bool"
  | PyInt _ => "int"
  | PyStr _ => "str"
  | PyPath _ => "pathlib.PosixPath"
  | PyLogger => "logging.Logger"
  | PyOther n _ => n
  end +++ "'>".

(** Truth value, for [logger or ...]. *)
Definition truthy (v : pyval) : bool :=
  match v with
  | PyNone => false
  | PyBool b => b
  | PyInt n => negb (n =? 0)
  | PyStr s => negb (String.eqb s "")
  | PyPath _ => true
  | PyLogger => true
  | PyOther _ t => t
  end.

(** The [str]-or-[Path] check with the conversion [Path(path)]. *)
Definition as_path (v : pyval) : option Path :=
  match v with
  | PyStr s => Some (Path_of_str s)
  | PyPath p => Some p
  | _ => None
  end.

(** [isinstance(v, int)] with the value; [bool] is a subclass of [int]. *)
Definition as_int (v : pyval) : option Z :=
  match v with
  | PyInt n => Some n
  | PyBool b => Some (if b then 1 else 0)
  | _ => None
  end.

Section Model.

(** The type of the time stamps [st_mtime] carries (a Python [float]). *)
Context {F : Type}.

(** Leaf values of a [FileMetadata]: [int], [float] or [str]. *)
Inductive scalar :=
| SInt (n : Z)
| SFloat (x : F)
| SStr (s : string).

Definition FileMetadata : Type := dict scalar.

(** [DirTree = Dict[str, Union[FileMetadata, "DirTree"]]]. *)
Inductive entry :=
| FileNode (meta : FileMetadata)
| DirNode (children : list (string * entry)).

Definition DirTree : Type := dict entry.

(* ------------------------------------------------------------------ *)
(** ** The host: file system and clock *)
(* ------------------------------------------------------------------ *)

Record stat_result := mkstat { st_size : Z; st_mtime : F }.

(** What the operating system answers to each query on a path.  The
    tests [exists], [is_file] and [is_dir] answer with a truth value;
    [stat] and the listing behind [iterdir] answer with a result or
    with an [OSError], given by its class and its text.  The answers to
    different queries are independent of each other, which covers an
    entry that changes between two queries.  [h_listdir] gives the
    names [os.listdir] returns; [h_strftime] is
    [datetime.fromtimestamp(t).strftime("%Y-%m-%d %H:%M")]. *)
Record Host := mkHost {
  h_exists : Path -> bool;
  h_is_file : Path -> bool;
  h_is_dir : Path -> bool;
  h_stat : Path -> (os_class * string) + stat_result;
  h_listdir : Path -> (os_class * string) + list string;
  h_strftime : F -> string
}.

Variable host : Host.

Definition human_readable_time (timestamp : F) : string :=
  h_strftime host timestamp.

(* ------------------------------------------------------------------ *)
(** ** Core functions *)
(* ------------------------------------------------------------------ *)

(** [get_file_info]; every logger writes to the one log of the model,
    so the [logger] argument is left out. *)
Definition get_file_info (path : pyval) (human_readable : bool)
  : M FileMetadata :=
  path <- match as_path path with
          | Some p => ret p
          | None => raise (TypeError ("'path' must be str or Path, got "
                                        +++ type_repr path))
          end ;;
  if negb (h_exists host path) then
    log WARNING ("File does not exist: " +++ path_str path) ;;;
    ret []
  else
    match h_stat host path with
    | inr stats =>
        let size :=
          if human_readable then SStr (human_readable_size (st_size stats))
          else SInt (st_size stats) in
        let modified_time :=
          if human_readable then SStr (human_readable_time (st_mtime stats))
          else SFloat (st_mtime stats) in
        ret [("size", size); ("modified_time", modified_time)]
    | inl (_, e) =>
        log WARNING ("Cannot access file info for: " +++ path_str path
                       +++ " (" +++ e +++ ")") ;;;
        ret []
    end.

(** The [for entry in entries] loop of [get_dir_tree]; [recurse] is the
    recursive call on a subdirectory. *)
Fixpoint for_entries (recurse : Path -> M DirTree) (human_readable : bool)
  (entries : list Path) (tree : DirTree) : M DirTree :=
  match entries with
  | [] => ret tree
  | entry :: rest =>
      if h_is_dir host entry then
        subtree <- recurse entry ;;
        for_entries recurse human_readable rest
          (dict_set tree (path_name entry)
             (DirNode (match subtree with [] => [] | _ => subtree end)))
      else if h_is_file host entry then
        info <- get_file_info (PyPath entry) human_readable ;;
        for_entries recurse human_readable rest
          (dict_set tree (path_name entry) (FileNode info))
      else
        log DEBUG ("Skipping non-file, non-dir entry: " +++ path_str entry) ;;;
        for_entries recurse human_readable rest tree
  end.

(** [get_dir_tree]; [fuel] bounds the nesting of recursive calls, and
    [OutOfFuel] stands for a call that has not returned within it. *)
Fixpoint get_dir_tree (fuel : nat) (path depth human_readable logger : pyval)
  : M DirTree :=
  match fuel with
  | O => ([], OutOfFuel)
  | S fuel' =>
      let logger := if truthy logger then logger else PyLogger in
      path <- match as_path path with
              | Some p => ret p
              | None => raise (TypeError ("'path' must be str or Path, got "
                                            +++ type_repr path))
              end ;;
      depth <- match as_int depth with
               | Some d => ret d
               | None => raise (TypeError ("'depth' must be int, got "
                                             +++ type_repr depth))
               end ;;
      if depth <? -1 then
        raise (ValueError ("'depth' must be -1 (unlimited) or >=0, got "
                             +++ str_of_int depth))
      else
      human_readable <-
        match human_readable with
        | PyBool b => ret b
        | _ => raise (TypeError ("'human_readable' must be bool, got "
                                   +++ type_repr human_readable))
        end ;;
      match logger with
      | PyNone | PyLogger =>
        if negb (h_exists host path) then
          raise (OSError FileNotFoundError
                   ("Path does not exist: " +++ path_str path))
        else if h_is_file host path then
          info <- get_file_info (PyPath path) human_readable ;;
          ret [(path_name path, FileNode info)]
        else if depth =? 0 then
          ret []
        else
          match h_listdir host path with
          | inr names =>
              let entries :=
                sorted (fun p => lower (path_name p))
                       (map (path_child path) names) in
              for_entries
                (fun entry =>
                   get_dir_tree fuel' (PyPath entry)
                     (PyInt (if 0 <? depth then depth - 1 else -1))
                     (PyBool human_readable) logger)
                human_readable entries []
          | inl (PermissionError, _) =>
              log WARNING ("Permission denied: " +++ path_str path) ;;;
              ret []
          | inl (c, e) => raise (OSError c e)
          end
      | _ => raise (TypeError ("'logger' must be logging.Logger or None, got "
                                 +++ type_repr logger))
      end
  end.

End Model.

(* ------------------------------------------------------------------ *)
(** ** JSON output *)
(* ------------------------------------------------------------------ *)

Definition dquote : ascii := ascii_of_nat 34.
Definition backslash : ascii := ascii_of_nat 92.
Definition newline : ascii := ascii_of_nat 10.

Definition hex_digit (n : N) : ascii :=
  if (n <? 10)%N then ascii_of_N (48 + n) else ascii_of_N (87 + n).

(** [json.encoder.ESCAPE_DCT] for [ensure_ascii=False]: the quote, the
    backslash and the control characters are escaped, every other
    character stands for itself. *)
Definition escape_char (c : ascii) : string :=
  let n := N_of_ascii c in
  if Ascii.eqb c dquote then String backslash (String dquote "")
  else if Ascii.eqb c backslash then String backslash (String backslash "")
  else if (n =? 10)%N then String backslash "n"
  else if (n =? 13)%N then String backslash "r"
  else if (n =? 9)%N then String backslash "t"
  else if (n =? 8)%N then String backslash "b"
  else if (n =? 12)%N then String backslash "f"
  else if (n <? 32)%N then
    String backslash
      ("u00" +++ String (hex_digit (n / 16)) (String (hex_digit (n mod 16)) ""))
  else String c "".

Fixpoint escape (s : string) : string :=
  match s with
  | EmptyString => EmptyString
  | String c s' => escape_char c +++ escape s'
  end.

(** [json.encoder.encode_basestring]. *)
Definition encode_basestring (s : string) : string :=
  String dquote (escape s +++ String dquote "").

Fixpoint spaces (n : nat) : string :=
  match n with
  | O => EmptyString
  | S n' => String " " (spaces n')
  end.

(** ['\n' + indent * level], with [indent] four spaces. *)
Definition newline_indent (lvl : nat) : string :=
  String newline (spaces (4 * lvl)).

Section Json.

Context {F : Type}.

(** A value as [json.dumps] sees it and as [json.loads] returns it. *)
Inductive pyobj :=
| JInt (n : Z)
| JFloat (x : F)
| JStr (s : string)
| JDict (items : list (string * pyobj)).

Definition obj_of_scalar (v : @scalar F) : pyobj :=
  match v with
  | SInt n => JInt n
  | SFloat x => JFloat x
  | SStr s => JStr s
  end.

Definition obj_of_meta (m : @FileMetadata F) : pyobj :=
  JDict (map (fun kv => (fst kv, obj_of_scalar (snd kv))) m).

(** A tree as the dictionary of dictionaries Python holds: the tag that
    tells a file from a directory is forgotten. *)
Fixpoint obj_of_entry (e : @entry F) : pyobj :=
  match e with
  | FileNode m => obj_of_meta m
  | DirNode c =>
      JDict (map (fun kv => match kv with (k, e') => (k, obj_of_entry e') end) c)
  end.

Definition obj_of_tree (t : @DirTree F) : pyobj := obj_of_entry (DirNode t).

(** [float.__repr__], which [json.dumps] uses for a [float]. *)
Variable float_repr : F -> string.

(** The members of a dictionary, separated by [item_separator]. *)
Definition encode_items (enc : pyobj -> string) (item_separator : string)
  : list (string * pyobj) -> string :=
  fix go (items : list (string * pyobj)) : string :=
    match items with
    | [] => EmptyString
    | (k, v) :: rest =>
        encode_basestring k +++ ": " +++ enc v +++
        match rest with
        | [] => EmptyString
        | _ => item_separator +++ go rest
        end
    end.

(** [json.encoder._make_iterencode] with [indent=4], separators
    [(",", ": ")], at nesting level [lvl]. *)
Fixpoint iterencode (o : pyobj) (lvl : nat) : string :=
  match o with
  | JInt n => str_of_int n
  | JFloat x => float_repr x
  | JStr s => encode_basestring s
  | JDict [] => "{}"
  | JDict items =>
      "{" +++ newline_indent (S lvl) +++
      encode_items (fun v => iterencode v (S lvl))
                   ("," +++ newline_indent (S lvl)) items +++
      newline_indent lvl +++ "}"
  end.

(** [json.dumps(tree, indent=4, ensure_ascii=False)]. *)
Definition dir_tree_to_json (tree : @DirTree F) : string :=
  iterencode (obj_of_tree tree) 0.

(* ------------------------------------------------------------------ *)
(** ** An order-preserving JSON reader *)
(* ------------------------------------------------------------------ *)

(** The reader the round trip goes through: an object becomes the
    dictionary of its members, inserted in the order of the text; a
    number without fraction or exponent is an [int], any other number
    is handed to [float_parse]. *)
Variable float_parse : string -> option F.

Definition is_ws (c : ascii) : bool :=
  let n := N_of_ascii c in
  ((n =? 32) || (n =? 10) || (n =? 13) || (n =? 9))%N.

Fixpoint skip_ws (s : string) : string :=
  match s with
  | EmptyString => EmptyString
  | String c s' => if is_ws c then skip_ws s' else s
  end.

Definition is_digit (c : ascii) : bool :=
  let n := N_of_ascii c in ((48 <=? n) && (n <=? 57))%N.

(** Characters a number is written with. *)
Definition is_num_char (c : ascii) : bool :=
  is_digit c || Ascii.eqb c "-" || Ascii.eqb c "+" || Ascii.eqb c "."
  || Ascii.eqb c "e" || Ascii.eqb c "E".

Definition is_int_char (c : ascii) : bool :=
  is_digit c || Ascii.eqb c "-".

Fixpoint string_forallb (f : ascii -> bool) (s : string) : bool :=
  match s with
  | EmptyString => true
  | String c s' => f c && string_forallb f s'
  end.

(** The longest prefix of number characters, and what follows it. *)
Fixpoint span_number (s : string) : string * string :=
  match s with
  | EmptyString => (EmptyString, EmptyString)
  | String c s' =>
      if is_num_char c then
        let (tok, rest) := span_number s' in (String c tok, rest)
      else (EmptyString, s)
  end.

Definition read_number (tok : string) : option pyobj :=
  if string_forallb is_int_char tok then
    option_map (fun d => JInt (Z.of_int d)) (NilZero.int_of_string tok)
  else option_map JFloat (float_parse tok).

Definition hex_value (c : ascii) : option N :=
  let n := N_of_ascii c in
  if ((48 <=? n) && (n <=? 57))%N then Some (n - 48)%N
  else if ((97 <=? n) && (n <=? 102))%N then Some (n - 87)%N
  else if ((65 <=? n) && (n <=? 70))%N then Some (n - 55)%N
  else None.

(** The text of a string after its opening quote: the string read, and
    what follows the closing quote. *)
Fixpoint read_string (s : string) : option (string * string) :=
  match s with
  | EmptyString => None
  | String c s' =>
      if Ascii.eqb c dquote then Some (EmptyString, s')
      else if Ascii.eqb c backslash then
        match s' with
        | String e s'' =>
            let continue (c' : ascii) (r : option (string * string)) :=
              option_map (fun p => (String c' (fst p), snd p)) r in
            if Ascii.eqb e dquote then continue dquote (read_string s'')
            else if Ascii.eqb e backslash then continue backslash (read_string s'')
            else if Ascii.eqb e "/" then continue "/"%char (read_string s'')
            else if Ascii.eqb e "n" then continue newline (read_string s'')
            else if Ascii.eqb e "r" then continue (ascii_of_nat 13) (read_string s'')
            else if Ascii.eqb e "t" then continue (ascii_of_nat 9) (read_string s'')
            else if Ascii.eqb e "b" then continue (ascii_of_nat 8) (read_string s'')
            else if Ascii.eqb e "f" then continue (ascii_of_nat 12) (read_string s'')
            else if Ascii.eqb e "u" then
              match s'' with
              | String h1 (String h2 (String h3 (String h4 s3))) =>
                  match hex_value h1, hex_value h2, hex_value h3, hex_value h4 with
                  | Some 0%N, Some 0%N, Some a, Some b =>
                      continue (ascii_of_N (16 * a + b)) (read_string s3)
                  | _, _, _, _ => None
                  end
              | _ => None
              end
            else None
        | EmptyString => None
        end
      else option_map (fun p => (String c (fst p), snd p)) (read_string s')
  end.

(** The members of an object after the first key's opening position. *)
Definition read_members (read_value : string -> option (pyobj * string))
  : nat -> string -> option (list (string * pyobj) * string) :=
  fix go (fuel : nat) (s : string) :=
    match fuel with
    | O => None
    | S fuel' =>
        match s with
        | String q s1 =>
            if Ascii.eqb q dquote then
              match read_string s1 with
              | Some (k, s2) =>
                  match skip_ws s2 with
                  | String colon s3 =>
                      if Ascii.eqb colon ":" then
                        match read_value (skip_ws s3) with
                        | Some (v, s4) =>
                            match skip_ws s4 with
                            | String d s5 =>
                                if Ascii.eqb d "," then
                                  option_map
                                    (fun r => ((k, v) :: fst r, snd r))
                                    (go fuel' (skip_ws s5))
                                else if Ascii.eqb d "}" then
                                  Some ([(k, v)], s5)
                                else None
                            | EmptyString => None
                            end
                        | None => None
                        end
                      else None
                  | EmptyString => None
                  end
              | None => None
              end
            else None
        | EmptyString => None
        end
    end.

Fixpoint read_value (fuel : nat) (s : string) : option (pyobj * string) :=
  match fuel with
  | O => None
  | S fuel' =>
      match s with
      | EmptyString => None
      | String c s' =>
          if Ascii.eqb c "{" then
            match skip_ws s' with
            | String c' s'' =>
                if Ascii.eqb c' "}" then Some (JDict [], s'')
                else
                  option_map (fun r => (JDict (dict_of_pairs (fst r)), snd r))
                    (read_members (read_value fuel') fuel' (String c' s''))
            | EmptyString => None
            end
          else if Ascii.eqb c dquote then
            option_map (fun r => (JStr (fst r), snd r)) (read_string s')
          else
            let (tok, rest) := span_number s in
            option_map (fun v => (v, rest)) (read_number tok)
      end
  end.

(** [json.loads(text)]; dictionaries keep the order of insertion. *)
Definition json_loads (text : string) : option pyobj :=
  match read_value (String.length text) (skip_ws text) with
  | Some (v, rest) =>
      match skip_ws rest with
      | EmptyString => Some v
      | _ => None
      end
  | None => None
  end.

End Json.

(* ------------------------------------------------------------------ *)
(** ** Notions the properties are stated with *)
(* ------------------------------------------------------------------ *)

Section Notions.

Context {F : Type}.

(** A tree cut at level [n]: the top [n] levels are kept, a directory at
    level [n] stays as a key with an empty node. *)
Fixpoint truncate (n : nat) (t : @DirTree F) : @DirTree F :=
  match n with
  | O => []
  | S n' =>
      map (fun kv =>
             match kv with
             | (k, FileNode m) => (k, FileNode m)
             | (k, DirNode c) => (k, DirNode (truncate n' c))
             end) t
  end.

(** Names in case-insensitive ascending order. *)
Definition name_le (a b : string) : Prop :=
  String.leb (lower a) (lower b) = true.

(** [P] holds of the key list of every directory node of the tree. *)
Fixpoint every_dir (P : list string -> Prop) (e : @entry F) : Prop :=
  match e with
  | FileNode _ => True
  | DirNode c =>
      P (keys c) /\
      (fix all (l : list (string * entry)) : Prop :=
         match l with
         | [] => True
         | (_, e') :: l' => every_dir P e' /\ all l'
         end) c
  end.

(** [Q] holds of the metadata of every file node of the tree. *)
Fixpoint every_file (Q : @FileMetadata F -> Prop) (e : @entry F) : Prop :=
  match e with
  | FileNode m => Q m
  | DirNode c =>
      (fix all (l : list (string * entry)) : Prop :=
         match l with
         | [] => True
         | (_, e') :: l' => every_file Q e' /\ all l'
         end) c
  end.

(** No dictionary of the value, at any level, has a key twice: what a
    value built of Python dictionaries always satisfies. *)
Fixpoint unique_keys (o : @pyobj F) : Prop :=
  match o with
  | JDict items =>
      NoDup (keys items) /\
      (fix all (l : list (string * pyobj)) : Prop :=
         match l with
         | [] => True
         | (_, v) :: l' => unique_keys v /\ all l'
         end) items
  | _ => True
  end.

(** The key lists of an object and of the objects below it, top down
    and left to right. *)
Fixpoint key_lists (o : @pyobj F) : list (list string) :=
  match o with
  | JDict items =>
      keys items ::
      (fix below (l : list (string * pyobj)) : list (list string) :=
         match l with
         | [] => []
         | (_, v) :: l' => key_lists v ++ below l'
         end) items
  | _ => []
  end.

End Notions.

(* ------------------------------------------------------------------ *)
(** ** Outcomes and arguments, as the properties speak of them *)
(* ------------------------------------------------------------------ *)

(** A computation that returns: the outcome is a value. *)
Definition returns {A} (m : M A) : Prop := exists a, snd m = Return a.

(** A call that comes back within the recursion budget, with a value or
    with an exception. *)
Definition terminates {A} (m : M A) : Prop := snd m <> OutOfFuel.

(** A [logger] argument that passes the check: a [Logger], or a false
    value, which [logger or ...] replaces by the module logger. *)
Definition logger_ok (lg : pyval) : Prop :=
  truthy lg = false \/ lg = PyLogger.

(* ------------------------------------------------------------------ *)
(** ** Example hosts *)
(* ------------------------------------------------------------------ *)

(** An endless chain of directories [d/d/d/...]: every path exists and is
    a directory that lists the one name [d]. *)
Definition endless_host {F : Type} : @Host F :=
  mkHost (fun _ => true) (fun _ => false) (fun _ => true)
         (fun _ => inl (OtherOSError, "not a file"))
         (fun _ => inr ["d"])
         (fun _ => "").

Section TreeNotions.

Context {F : Type}.
Variable host : @Host F.

(** Every entry of the tree is what the host reports at its path: a file
    node sits at a regular file, a directory node at a directory, and
    so on below it.  [p] is the path of the entry. *)
Fixpoint entry_kind_ok (p : Path) (e : @entry F) : Prop :=
  match e with
  | FileNode _ => h_is_file host p = true
  | DirNode c =>
      h_is_dir host p = true /\
      (fix all (l : list (string * entry)) : Prop :=
         match l with
         | [] => True
         | (k, e') :: l' => entry_kind_ok (path_child p k) e' /\ all l'
         end) c
  end.

(** The same for the children of the directory [p]. *)
Definition tree_kinds_ok (p : Path) (t : @DirTree F) : Prop :=
  Forall (fun kv => entry_kind_ok (path_child p (fst kv)) (snd kv)) t.


End TreeNotions.

(** The keys of a directory node: no name twice, names in
    case-insensitive ascending order. *)
Definition sorted_unique (ks : list string) : Prop :=
  NoDup ks /\ StronglySorted name_le ks.

(** One entry of a tree cut at the next level. *)
Definition truncate_entry {F : Type} (n : nat) (e : @entry F) : @entry F :=
  match e with
  | FileNode m => FileNode m
  | DirNode c => DirNode (truncate n c)
  end.

(** What may follow a number in a text: nothing, or a character no
    number is written with. *)
Definition ends_number (rest : string) : Prop :=
  match rest with
  | EmptyString => True
  | String c _ => is_num_char c = false
  end.

(** The nesting budget [read_value] needs for a value. *)
Fixpoint weight {F : Type} (o : @pyobj F) : nat :=
  match o with
  | JDict items =>
      S ((fix sum (l : list (string * pyobj)) : nat :=
            match l with
            | [] => O
            | (_, v) :: l' => (S (weight v) + sum l')%nat
            end) items)
  | _ => 1%nat
  end.

(* ------------------------------------------------------------------ *)
(** ** A file system given as a table *)
(* ------------------------------------------------------------------ *)

Section Snapshot.

Context {F : Type}.

(** What sits at a path: a regular file with the answer of [stat], a
    directory with the answer of [os.listdir], or something else (a
    socket, a device, a broken link). *)
Inductive node :=
| RegularFile (st : (os_class * string) + @stat_result F)
| Directory (ls : (os_class * string) + list string)
| Special.

Definition snapshot : Type := list (list string * node).

Fixpoint lookup (key : list string) (t : snapshot) : option node :=
  match t with
  | [] => None
  | (k, n) :: t' =>
      if list_eq_dec string_dec k key then Some n else lookup key t'
  end.

(** The host that answers from the table; paths are looked up by their
    components. *)
Definition snapshot_host (t : snapshot) (strftime : F -> string) : @Host F :=
  mkHost
    (fun p => match lookup (parts p) t with Some _ => true | None => false end)
    (fun p => match lookup (parts p) t with
              | Some (RegularFile _) => true
              | _ => false
              end)
    (fun p => match lookup (parts p) t with
              | Some (Directory _) => true
              | _ => false
              end)
    (fun p => match lookup (parts p) t with
              | Some (RegularFile st) => st
              | Some _ => inl (OtherOSError, "Operation not supported")
              | None => inl (FileNotFoundError, "No such file or directory")
              end)
    (fun p => match lookup (parts p) t with
              | Some (Directory ls) => ls
              | Some _ => inl (OtherOSError, "Not a directory")
              | None => inl (FileNotFoundError, "No such file or directory")
              end)
    strftime.


End Snapshot.

(** Floats with an integral value, written as Python writes them:
    [5.0], [-12.0]. *)
Definition integral_repr (x : Z) : string := str_of_int x +++ ".0".

Fixpoint strip_point_zero (s : string) : option string :=
  if String.eqb s ".0" then Some EmptyString
  else match s with
       | EmptyString => None
       | String c s' => option_map (String c) (strip_point_zero s')
       end.

Definition integral_parse (s : string) : option Z :=
  match strip_point_zero s with
  | Some tok => option_map Z.of_int (NilZero.int_of_string tok)
  | None => None
  end.

(** The directory [/srv] of the examples: a file, a directory with an
    unreadable file in it, a directory that may not be listed, and a
    socket. *)
Definition srv : Path := mkPath true ["srv"].

Definition srv_snapshot : @snapshot Z :=
  [ (["srv"], Directory (inr ["secret"; "sock"; "Build"; "a.txt"]));
    (["srv"; "a.txt"], RegularFile (inr (mkstat 2048 1700000000)));
    (["srv"; "Build"], Directory (inr ["c.txt"; "deep"]));
    (["srv"; "Build"; "c.txt"],
     RegularFile (inl (OtherOSError, "[Errno 5] Input/output error")));
    (["srv"; "Build"; "deep"], Directory (inr []));
    (["srv"; "secret"],
     Directory (inl (PermissionError, "[Errno 13] Permission denied")));
    (["srv"; "sock"], Special) ].

Definition srv_host : @Host Z :=
  snapshot_host srv_snapshot (fun t => "2023-11-14 22:13").



(** A call that ends in neither [TypeError] nor [ValueError]. *)
Definition no_arg_error {A} (m : M A) : Prop :=
  match snd m with
  | Raise (TypeError _) | Raise (ValueError _) => False
  | _ => True
  end.

(** What the unlimited run on [/srv] returns, and what it logs. *)
Definition srv_tree : @DirTree Z :=
  [ ("a.txt",
     FileNode [("size", SInt 2048); ("modified_time", SFloat 1700000000)]);
    ("Build", DirNode [("c.txt", FileNode []); ("deep", DirNode [])]);
    ("secret", DirNode []) ].

Definition srv_logs : list log_record :=
  [ (WARNING,
     "Cannot access file info for: /srv/Build/c.txt ([Errno 5] Input/output error)");
    (WARNING, "Permission denied: /srv/secret");
    (DEBUG, "Skipping non-file, non-dir entry: /srv/sock") ].

(* ------------------------------------------------------------------ *)
(** ** Notions of the further properties *)
(* ------------------------------------------------------------------ *)

(** The metadata [get_file_info] gives in a mode: nothing, or the size
    and the time of modification, as numbers in the raw mode and as
    strings in the human-readable mode. *)
Definition meta_of_mode {F : Type} (human_readable : bool)
  (m : @FileMetadata F) : Prop :=
  m = [] \/
  if human_readable then
    exists size time, m = [("size", SStr size); ("modified_time", SStr time)]
  else
    exists size time, m = [("size", SInt size); ("modified_time", SFloat time)].

(** No record of the log is a warning. *)
Definition no_warning (logs : list log_record) : Prop :=
  forall msg, ~ In (WARNING, msg) logs.

(** The metadata of a file that could be read: the size and the time of
    modification, in this order. *)
Definition complete {F : Type} (m : @FileMetadata F) : Prop :=
  keys m = ["size"; "modified_time"].







(* ------------------------------------------------------------------ *)
(** ** The script *)
(* ------------------------------------------------------------------ *)







Section Script.

Context {F : Type}.
Variable host : @Host F.
Variable float_repr : F -> string.


End Script.



(* ================================================================== *)
(** * Properties *)
(* ================================================================== *)

Example hrs_0 : human_readable_size 0 = "0 B".
Proof. reflexivity. Qed.
Example hrs_1023 : human_readable_size 1023 = "1023 B".
Proof. reflexivity. Qed.
Example hrs_2048 : human_readable_size 2048 = "2.0 KB".
Proof. reflexivity. Qed.
Example hrs_1280 : human_readable_size 1280 = "1.2 KB".
Proof. reflexivity. Qed.
Example hrs_1536 : human_readable_size 1536 = "1.5 KB".
Proof. reflexivity. Qed.
Example hrs_mb : human_readable_size (5 * 1024 * 1024) = "5.0 MB".
Proof. reflexivity. Qed.
Example hrs_edge : human_readable_size (1024 * 1024 - 1) = "1024.0 KB".
Proof. reflexivity. Qed.
Example hrs_tb : human_readable_size (1023 * 2 ^ 40) = "1023.0 TB".
Proof. vm_compute. reflexivity. Qed.
Example hrs_pb : human_readable_size (2 ^ 50) = "1024.0 PB".
Proof. vm_compute. reflexivity. Qed.
Example hrs_big : human_readable_size (2 ^ 63 - 1) = "8388608.0 PB".
Proof. vm_compute. reflexivity. Qed.

(* ------------------------------------------------------------------ *)
(** ** The computation monad *)
(* ------------------------------------------------------------------ *)

Lemma bind_ret {A B} (a : A) (k : A -> M B) : bind (ret a) k = k a.
Proof. unfold bind, ret; simpl. now destruct (k a). Qed.

Lemma bind_raise {A B} (e : exception) (k : A -> M B) :
  bind (raise e) k = raise e.
Proof. reflexivity. Qed.

Lemma bind_return {A B} (l : list log_record) (a : A) (k : A -> M B) :
  bind (l, Return a) k = (l ++ fst (k a), snd (k a)).
Proof. reflexivity. Qed.

Lemma bind_log {B} lvl msg (k : unit -> M B) :
  bind (log lvl msg) k = ((lvl, msg) :: fst (k tt), snd (k tt)).
Proof. reflexivity. Qed.


Lemma returns_bind {A B} (m : M A) (k : A -> M B) :
  returns m -> (forall a, returns (k a)) -> returns (bind m k).
Proof.
  intros [a Ha] Hk. unfold bind. rewrite Ha. simpl. apply Hk.
Qed.

Section Facts.

Context {F : Type}.
Variable host : @Host F.

(* ------------------------------------------------------------------ *)
(** ** [get_file_info] *)
(* ------------------------------------------------------------------ *)

Lemma get_file_info_missing path p hr :
  as_path path = Some p -> h_exists host p = false ->
  get_file_info host path hr
  = ([(WARNING, "File does not exist: " +++ path_str p)], Return []).
Proof.
  intros Hp He. unfold get_file_info. rewrite Hp, bind_ret, He. reflexivity.
Qed.

Lemma get_file_info_unreadable path p hr c e :
  as_path path = Some p -> h_exists host p = true ->
  h_stat host p = inl (c, e) ->
  get_file_info host path hr
  = ([(WARNING, "Cannot access file info for: " +++ path_str p
                  +++ " (" +++ e +++ ")")], Return []).
Proof.
  intros Hp He Hs. unfold get_file_info. rewrite Hp, bind_ret, He, Hs.
  reflexivity.
Qed.

Lemma get_file_info_stat path p hr st :
  as_path path = Some p -> h_exists host p = true ->
  h_stat host p = inr st ->
  get_file_info host path hr
  = ([], Return
           [("size",
             if hr then SStr (human_readable_size (st_size st))
             else SInt (st_size st));
            ("modified_time",
             if hr then SStr (human_readable_time host (st_mtime st))
             else SFloat (st_mtime st))]).
Proof.
  intros Hp He Hs. unfold get_file_info. rewrite Hp, bind_ret, He, Hs.
  reflexivity.
Qed.

Lemma get_file_info_returns p hr :
  returns (get_file_info host (PyPath p) hr).
Proof.
  destruct (h_exists host p) eqn:He.
  - destruct (h_stat host p) as [[c e]|st] eqn:Hs.
    + rewrite (get_file_info_unreadable (PyPath p) p hr c e eq_refl He Hs). now eexists.
    + rewrite (get_file_info_stat (PyPath p) p hr st eq_refl He Hs). now eexists.
  - rewrite (get_file_info_missing (PyPath p) p hr eq_refl He). now eexists.
Qed.


(* ------------------------------------------------------------------ *)
(** ** [get_dir_tree]: argument checks and base cases *)
(* ------------------------------------------------------------------ *)


Lemma logger_ok_default lg :
  logger_ok lg -> (if truthy lg then lg else PyLogger) = PyLogger.
Proof. intros [H | ->]; [now rewrite H | reflexivity]. Qed.

(** The body of [get_dir_tree] once its arguments have passed the
    checks. *)
Lemma get_dir_tree_checked fuel path p depth d hr lg :
  as_path path = Some p -> as_int depth = Some d -> -1 <= d ->
  logger_ok lg ->
  get_dir_tree host (S fuel) path depth (PyBool hr) lg =
  if negb (h_exists host p) then
    raise (OSError FileNotFoundError ("Path does not exist: " +++ path_str p))
  else if h_is_file host p then
    bind (get_file_info host (PyPath p) hr)
         (fun info => ret [(path_name p, FileNode info)])
  else if d =? 0 then ret []
  else
    match h_listdir host p with
    | inr names =>
        for_entries host
          (fun entry =>
             get_dir_tree host fuel (PyPath entry)
               (PyInt (if 0 <? d then d - 1 else -1)) (PyBool hr) PyLogger)
          hr
          (sorted (fun q => lower (path_name q)) (map (path_child p) names))
          []
    | inl (PermissionError, _) =>
        bind (log WARNING ("Permission denied: " +++ path_str p))
             (fun _ => ret [])
    | inl (c, e) => raise (OSError c e)
    end.
Proof.
  intros Hp Hd Hle Hlg. simpl.
  rewrite (logger_ok_default _ Hlg), Hp, Hd, !bind_ret.
  destruct (d <? -1) eqn:Hlt; [apply Z.ltb_lt in Hlt; lia|].
  reflexivity.
Qed.


(* ------------------------------------------------------------------ *)
(** ** Termination *)
(* ------------------------------------------------------------------ *)


Lemma terminates_ret {A} (a : A) : terminates (ret a).
Proof. discriminate. Qed.

Lemma terminates_raise {A} e : terminates (@raise A e).
Proof. discriminate. Qed.

Lemma terminates_bind {A B} (m : M A) (k : A -> M B) :
  terminates m -> (forall a, terminates (k a)) -> terminates (bind m k).
Proof.
  unfold terminates, bind. intros Hm Hk.
  destruct (snd m); simpl; auto. discriminate.
Qed.

Lemma terminates_get_file_info path hr :
  terminates (get_file_info host path hr).
Proof.
  unfold get_file_info.
  apply terminates_bind.
  - destruct (as_path path); discriminate.
  - intros p. destruct (negb (h_exists host p)).
    + discriminate.
    + destruct (h_stat host p) as [[c e]|st]; discriminate.
Qed.

Lemma terminates_for_entries recurse hr entries :
  (forall entry, terminates (recurse entry)) ->
  forall tree, terminates (for_entries host recurse hr entries tree).
Proof.
  intros Hrec. induction entries as [|entry rest IH]; intros tree; simpl.
  - apply terminates_ret.
  - destruct (h_is_dir host entry).
    + apply terminates_bind; auto.
    + destruct (h_is_file host entry).
      * apply terminates_bind; auto using terminates_get_file_info.
      * apply terminates_bind; [discriminate | auto].
Qed.

Lemma get_dir_tree_terminates_within (fuel : nat) :
  forall path depth d hr lg,
    as_int depth = Some d -> 0 <= d < Z.of_nat fuel ->
    terminates (get_dir_tree host fuel path depth hr lg).
Proof.
  induction fuel as [|fuel IH]; intros path depth d hr lg Hd Hrange;
    [lia|].
  cbn [get_dir_tree]; rewrite Hd.
  apply terminates_bind; [destruct (as_path path); discriminate|].
  intros p; rewrite bind_ret.
  destruct (d <? -1) eqn:Hlt; [discriminate|].
  apply terminates_bind; [destruct hr; discriminate|]; intros b.
  destruct (if truthy lg then lg else PyLogger); try discriminate.
  all: destruct (negb (h_exists host p)); [discriminate|].
  all: destruct (h_is_file host p);
    [apply terminates_bind;
       [apply terminates_get_file_info | intros; discriminate]|].
  all: destruct (d =? 0) eqn:Hz; [discriminate|].
  all: apply Z.eqb_neq in Hz.
  all: destruct (h_listdir host p) as [[[] e]|names]; try discriminate.
  all: apply terminates_for_entries; intros entry.
  all: apply (IH _ _ (d - 1)); [|lia].
  all: replace (0 <? d) with true by (symmetry; apply Z.ltb_lt; lia).
  all: reflexivity.
Qed.

End Facts.

Lemma endless_never_returns {F : Type} (fuel : nat) :
  forall p hr,
    get_dir_tree (@endless_host F) fuel (PyPath p) (PyInt (-1)) (PyBool hr)
                 PyLogger
    = ([], OutOfFuel).
Proof.
  induction fuel as [|fuel IH]; intros p hr; [reflexivity|].
  rewrite (get_dir_tree_checked endless_host fuel (PyPath p) p
             (PyInt (-1)) (-1) hr PyLogger eq_refl eq_refl
             (Z.le_refl _) (or_intror eq_refl)).
  cbn. rewrite IH. reflexivity.
Qed.

(* ------------------------------------------------------------------ *)
(** ** Order of names, [sorted] and [dict_set] *)
(* ------------------------------------------------------------------ *)

Lemma ascii_compare_spec (a b : ascii) :
  CompareSpec (a = b) (N_of_ascii a < N_of_ascii b)%N
              (N_of_ascii b < N_of_ascii a)%N (Ascii.compare a b).
Proof.
  unfold Ascii.compare.
  destruct (N.compare_spec (N_of_ascii a) (N_of_ascii b)) as [H|H|H];
    constructor; auto.
  rewrite <- (ascii_N_embedding a), <- (ascii_N_embedding b). now rewrite H.
Qed.

Lemma string_leb_trans (a b c : string) :
  String.leb a b = true -> String.leb b c = true -> String.leb a c = true.
Proof.
  unfold String.leb. revert b c.
  induction a as [|x a IH]; intros [|y b] [|z c]; simpl; try easy.
  destruct (ascii_compare_spec x y), (ascii_compare_spec y z),
    (ascii_compare_spec x z); subst; try easy; try lia; eauto.
Qed.

Lemma string_leb_refl (a : string) : String.leb a a = true.
Proof. destruct (String.leb_total a a); assumption. Qed.

Lemma name_le_trans a b c : name_le a b -> name_le b c -> name_le a c.
Proof. apply string_leb_trans. Qed.

Section Sorting.

Context {A : Type}.
Variable key : A -> string.

Lemma In_insert_by x y l : In y (insert_by key x l) <-> y = x \/ In y l.
Proof.
  induction l as [|z l IH]; simpl.
  - intuition.
  - destruct (String.leb (key x) (key z)); simpl; rewrite ?IH; intuition.
Qed.

Lemma In_sorted y l : In y (sorted key l) <-> In y l.
Proof.
  induction l as [|x l IH]; simpl; [tauto|].
  rewrite In_insert_by, IH. intuition.
Qed.

Lemma insert_by_sorted x l :
  StronglySorted (key_le key) l -> StronglySorted (key_le key) (insert_by key x l).
Proof.
  induction 1 as [|z l Hl IH Hz]; simpl.
  - constructor; constructor.
  - destruct (String.leb (key x) (key z)) eqn:Hxz.
    + constructor; [now constructor|]. constructor; [exact Hxz|].
      eapply Forall_impl; [|exact Hz]. intros w Hw.
      unfold key_le in *. eapply string_leb_trans; eauto.
    + constructor; [exact IH|]. apply Forall_forall. intros w Hw.
      apply In_insert_by in Hw. destruct Hw as [->|Hw].
      * unfold key_le. destruct (String.leb_total (key x) (key z)); congruence.
      * rewrite Forall_forall in Hz. auto.
Qed.

Lemma sorted_sorted l : StronglySorted (key_le key) (sorted key l).
Proof.
  induction l; simpl; [constructor | now apply insert_by_sorted].
Qed.

End Sorting.

Section DictSet.

Context {V : Type}.

Lemma keys_dict_set_old (d : dict V) k v :
  In k (keys d) -> keys (dict_set d k v) = keys d.
Proof.
  induction d as [|[k' v'] d IH]; simpl; [tauto|].
  destruct (String.eqb_spec k' k) as [->|Hne]; [reflexivity|].
  intros [H|H]; [congruence|]. simpl. now rewrite IH.
Qed.

Lemma keys_dict_set_new (d : dict V) k v :
  ~ In k (keys d) -> keys (dict_set d k v) = keys d ++ [k].
Proof.
  induction d as [|[k' v'] d IH]; simpl; [reflexivity|].
  intros Hn. destruct (String.eqb_spec k' k) as [->|Hne]; [tauto|].
  simpl. rewrite IH; tauto.
Qed.

Lemma In_dict_set (d : dict V) k v kv :
  In kv (dict_set d k v) -> kv = (k, v) \/ In kv d.
Proof.
  induction d as [|[k' v'] d IH]; simpl.
  - intuition.
  - destruct (String.eqb_spec k' k) as [->|Hne]; simpl; intuition.
Qed.

Lemma Forall_dict_set (P : string * V -> Prop) (d : dict V) k v :
  Forall P d -> P (k, v) -> Forall P (dict_set d k v).
Proof.
  intros Hd Hkv. apply Forall_forall. intros kv Hin.
  apply In_dict_set in Hin. destruct Hin as [->|Hin]; [assumption|].
  rewrite Forall_forall in Hd. auto.
Qed.

Lemma sorted_unique_dict_set (d : dict V) k v :
  sorted_unique (keys d) ->
  (forall k', In k' (keys d) -> name_le k' k) ->
  sorted_unique (keys (dict_set d k v)).
Proof.
  intros [Hnd Hs] Hle.
  destruct (in_dec string_dec k (keys d)) as [Hin|Hnin].
  - rewrite keys_dict_set_old by assumption. now split.
  - rewrite keys_dict_set_new by assumption. split.
    + apply NoDup_app; [assumption | repeat constructor; simpl; tauto |].
      intros x Hx [<-|[]]. contradiction.
    + clear Hnd Hnin. induction Hs as [|x l Hl IH Hx]; simpl.
      * repeat constructor.
      * constructor.
        -- apply IH. intros k' Hk'. apply Hle. now right.
        -- apply Forall_app. split; [assumption|].
           constructor; [|constructor]. apply Hle. now left.
Qed.

Lemma dict_set_new_app (d : dict V) k v :
  ~ In k (keys d) -> dict_set d k v = d ++ [(k, v)].
Proof.
  induction d as [|[k' v'] d IH]; simpl; [reflexivity|].
  intros Hn. destruct (String.eqb_spec k' k) as [->|Hne]; [tauto|].
  rewrite IH; tauto.
Qed.

Lemma dict_of_pairs_nodup (pairs : list (string * V)) :
  NoDup (keys pairs) -> dict_of_pairs pairs = pairs.
Proof.
  unfold dict_of_pairs.
  assert (H : forall (l acc : dict V),
             NoDup (keys (acc ++ l)) ->
             fold_left (fun d kv => dict_set d (fst kv) (snd kv)) l acc
             = acc ++ l).
  { induction l as [|[k v] l IH]; intros acc Hnd; simpl.
    - now rewrite app_nil_r.
    - rewrite dict_set_new_app.
      + rewrite IH; rewrite <- app_assoc; [reflexivity | exact Hnd].
      + unfold keys in *. rewrite map_app in Hnd. simpl in Hnd.
        apply NoDup_remove_2 in Hnd. intros Hin. apply Hnd.
        apply in_or_app. now left. }
  intros Hnd. now apply (H pairs []).
Qed.

End DictSet.

Lemma path_name_child p name : path_name (path_child p name) = name.
Proof. unfold path_name, path_child. simpl. apply last_last. Qed.

Section Traversal.

Context {F : Type}.
Variable host : @Host F.

Lemma bind_inv {A B} (m : M A) (k : A -> M B) logs b :
  bind m k = (logs, Return b) ->
  exists l1 a l2, m = (l1, Return a) /\ k a = (l2, Return b)
                  /\ logs = l1 ++ l2.
Proof.
  unfold bind. destruct m as [l1 [a| |]]; simpl; try discriminate.
  destruct (k a) as [l2 o] eqn:Hk. simpl. intros [= <- ->].
  now exists l1, a, l2.
Qed.

Lemma or_empty (t : @DirTree F) :
  match t with [] => [] | _ => t end = t.
Proof. now destruct t. Qed.

Lemma every_dir_DirNode (P : list string -> Prop) (c : @DirTree F) :
  every_dir P (DirNode c) <->
  P (keys c) /\ Forall (fun kv => every_dir P (snd kv)) c.
Proof.
  simpl. apply and_iff_compat_l.
  induction c as [|[k e] c IH]; simpl.
  - intuition.
  - rewrite IH. split.
    + intros [He Hc]. now constructor.
    + intros H. inversion H; subst. tauto.
Qed.

Lemma entry_kind_ok_DirNode p (c : @DirTree F) :
  entry_kind_ok host p (DirNode c) <->
  h_is_dir host p = true /\ tree_kinds_ok host p c.
Proof.
  simpl. apply and_iff_compat_l. unfold tree_kinds_ok.
  induction c as [|[k e] c IH]; simpl.
  - intuition.
  - rewrite IH. split.
    + intros [He Hc]. now constructor.
    + intros H. inversion H; subst. tauto.
Qed.

(** The loop of [get_dir_tree] keeps an invariant [I] of the entries
    still to visit and the tree built so far. *)
Lemma for_entries_invariant
  (I : list Path -> @DirTree F -> Prop) recurse hr :
  (forall entry rest tree l subtree,
     I (entry :: rest) tree -> h_is_dir host entry = true ->
     recurse entry = (l, Return subtree) ->
     I rest (dict_set tree (path_name entry) (DirNode subtree))) ->
  (forall entry rest tree l info,
     I (entry :: rest) tree -> h_is_dir host entry = false ->
     h_is_file host entry = true ->
     get_file_info host (PyPath entry) hr = (l, Return info) ->
     I rest (dict_set tree (path_name entry) (FileNode info))) ->
  (forall entry rest tree,
     I (entry :: rest) tree -> h_is_dir host entry = false ->
     h_is_file host entry = false -> I rest tree) ->
  forall entries tree logs t,
    I entries tree ->
    for_entries host recurse hr entries tree = (logs, Return t) ->
    I [] t.
Proof.
  intros Hdir Hfile Hskip.
  induction entries as [|entry rest IH]; intros tree logs t HI; simpl.
  - intros [= _ <-]. exact HI.
  - destruct (h_is_dir host entry) eqn:Hd.
    + intros H. apply bind_inv in H.
      destruct H as (l1 & subtree & l2 & Hrec & Hrest & _).
      rewrite or_empty in Hrest. eapply IH; [|exact Hrest]. eauto.
    + destruct (h_is_file host entry) eqn:Hf.
      * intros H. apply bind_inv in H.
        destruct H as (l1 & info & l2 & Hinfo & Hrest & _).
        eapply IH; [|exact Hrest]. eauto.
      * intros H. apply bind_inv in H.
        destruct H as (l1 & [] & l2 & _ & Hrest & _).
        eapply IH; [|exact Hrest]. eauto.
Qed.

(** A call that returns a tree has passed every argument check. *)
Lemma get_dir_tree_return_inv fuel path depth hr lg logs (t : @DirTree F) :
  get_dir_tree host fuel path depth hr lg = (logs, Return t) ->
  exists fuel' p d b,
    fuel = S fuel' /\ as_path path = Some p /\ as_int depth = Some d /\
    -1 <= d /\ hr = PyBool b /\ logger_ok lg.
Proof.
  destruct fuel as [|fuel']; [discriminate|]. cbn [get_dir_tree].
  destruct (as_path path) as [p|]; [|discriminate]. rewrite bind_ret.
  destruct (as_int depth) as [d|]; [|discriminate]. rewrite bind_ret.
  destruct (d <? -1) eqn:Hlt; [discriminate|]. apply Z.ltb_ge in Hlt.
  destruct hr; try discriminate. rewrite bind_ret.
  intros H. exists fuel', p, d, b. repeat split; auto.
  unfold logger_ok. destruct (truthy lg) eqn:Ht; [|now left].
  right. destruct lg; try discriminate; reflexivity.
Qed.

(** The four ways a checked call returns a tree. *)
Lemma get_dir_tree_cases fuel p d b logs (t : @DirTree F) :
  -1 <= d ->
  get_dir_tree host (S fuel) (PyPath p) (PyInt d) (PyBool b) PyLogger
  = (logs, Return t) ->
  h_exists host p = true /\
  ((h_is_file host p = true /\
    exists info, get_file_info host (PyPath p) b = (logs, Return info)
                 /\ t = [(path_name p, FileNode info)])
   \/ (h_is_file host p = false /\ d = 0 /\ t = [] /\ logs = [])
   \/ (h_is_file host p = false /\ d <> 0 /\ t = [] /\
       exists e, h_listdir host p = inl (PermissionError, e) /\
                 logs = [(WARNING, "Permission denied: " +++ path_str p)])
   \/ (h_is_file host p = false /\ d <> 0 /\
       exists names,
         h_listdir host p = inr names /\
         for_entries host
           (fun entry =>
              get_dir_tree host fuel (PyPath entry)
                (PyInt (if 0 <? d then d - 1 else -1)) (PyBool b) PyLogger)
           b
           (sorted (fun q => lower (path_name q)) (map (path_child p) names))
           []
         = (logs, Return t))).
Proof.
  intros Hle.
  rewrite (get_dir_tree_checked host fuel (PyPath p) p (PyInt d) d b PyLogger
             eq_refl eq_refl Hle (or_intror eq_refl)).
  destruct (h_exists host p); simpl; [|discriminate].
  intros H. split; [reflexivity|].
  destruct (h_is_file host p).
  - left. split; [reflexivity|]. apply bind_inv in H.
    destruct H as (l1 & info & l2 & Hinfo & Hret & ->).
    injection Hret as <- <-. rewrite app_nil_r. eauto.
  - right. destruct (d =? 0) eqn:Hz.
    + left. apply Z.eqb_eq in Hz. injection H as <- <-. auto.
    + right. apply Z.eqb_neq in Hz.
      destruct (h_listdir host p) as [[c e]|names] eqn:Hl.
      * left. destruct c; try discriminate. injection H as <- <-.
        repeat split; eauto.
      * right. repeat split; eauto.
Qed.

(* ------------------------------------------------------------------ *)
(** ** Order and uniqueness of names *)
(* ------------------------------------------------------------------ *)

Lemma get_dir_tree_sorted fuel :
  forall path depth hr lg logs (t : @DirTree F),
    get_dir_tree host fuel path depth hr lg = (logs, Return t) ->
    every_dir sorted_unique (DirNode t).
Proof.
  induction fuel as [|fuel IH]; intros path depth hr lg logs t H;
    [discriminate|].
  destruct (get_dir_tree_return_inv _ _ _ _ _ _ _ H)
    as (fuel' & p & d & b & [= <-] & Hp & Hd & Hle & -> & Hlg).
  rewrite (get_dir_tree_checked host fuel path p depth d b lg Hp Hd Hle Hlg)
    in H.
  rewrite <- (get_dir_tree_checked host fuel (PyPath p) p (PyInt d) d b
                PyLogger eq_refl eq_refl Hle (or_intror eq_refl)) in H.
  apply get_dir_tree_cases in H; [|assumption].
  destruct H as [_ [(_ & info & _ & ->) | [(_ & _ & -> & _)
    | [(_ & _ & -> & _) | (_ & _ & names & _ & H)]]]].
  - apply every_dir_DirNode. split.
    + split; repeat constructor. simpl. tauto.
    + repeat constructor.
  - apply every_dir_DirNode. repeat constructor.
  - apply every_dir_DirNode. repeat constructor.
  - set (key := fun q : Path => lower (path_name q)) in *.
    pose (I := fun (es : list Path) (tree : @DirTree F) =>
                 StronglySorted (key_le key) es /\
                 every_dir sorted_unique (DirNode tree) /\
                 (forall k e, In k (keys tree) -> In e es ->
                              name_le k (path_name e))).
    assert (Hstep : forall ent rest tree (e : @entry F),
               I (ent :: rest) tree -> every_dir sorted_unique e ->
               I rest (dict_set tree (path_name ent) e)).
    { intros entry rest tree e (Hs & Ht & Hk) He.
      apply every_dir_DirNode in Ht. destruct Ht as [Hks Hch].
      inversion Hs as [|? ? Hs' Hhd]; subst. split; [|split].
      - exact Hs'.
      - apply every_dir_DirNode. split.
        + apply sorted_unique_dict_set; [assumption|].
          intros k' Hk'. apply (Hk k' entry); simpl; auto.
        + apply Forall_dict_set; assumption.
      - intros k e' Hin He'. unfold keys in Hin. apply in_map_iff in Hin.
        destruct Hin as ([k0 v0] & <- & Hin). simpl.
        apply In_dict_set in Hin. destruct Hin as [[= -> ->]|Hin].
        + rewrite Forall_forall in Hhd. apply Hhd. assumption.
        + apply (Hk k0 e'); [|simpl; auto].
          unfold keys. apply in_map_iff. now exists (k0, v0). }
    apply (for_entries_invariant I) in H; [apply H | | | |].
    + intros entry rest tree l subtree HI _ Hrec.
      apply Hstep; [assumption|]. eapply IH. exact Hrec.
    + intros entry rest tree l info HI _ _ _. apply Hstep; simpl; auto.
    + intros entry rest tree (Hs & Ht & Hk) _ _.
      inversion Hs; subst. split; [|split]; auto.
      intros k e Hin He. apply Hk; simpl; auto.
    + split; [|split].
      * apply sorted_sorted.
      * apply every_dir_DirNode. repeat constructor.
      * intros k e [].
Qed.

Lemma get_file_info_keys path hr logs (m : @FileMetadata F) :
  get_file_info host path hr = (logs, Return m) -> NoDup (keys m).
Proof.
  unfold get_file_info. destruct (as_path path) as [p|]; [|discriminate].
  rewrite bind_ret. destruct (negb (h_exists host p)).
  - intros [= _ <-]. constructor.
  - destruct (h_stat host p) as [[c e]|st]; intros [= _ <-].
    + constructor.
    + repeat constructor; simpl; intuition discriminate.
Qed.

Lemma every_file_DirNode_intro (Q : @FileMetadata F -> Prop) (c : @DirTree F) :
  Forall (fun kv => every_file Q (snd kv)) c -> every_file Q (DirNode c).
Proof.
  simpl. induction 1 as [|[k e] c He Hc IH]; simpl; auto.
Qed.

(** The metadata of every file node comes from [get_file_info], so it
    has no key twice. *)
Lemma get_dir_tree_files fuel :
  forall path depth hr lg logs (t : @DirTree F),
    get_dir_tree host fuel path depth hr lg = (logs, Return t) ->
    every_file (fun m => NoDup (keys m)) (DirNode t).
Proof.
  induction fuel as [|fuel IH]; intros path depth hr lg logs t H;
    [discriminate|].
  destruct (get_dir_tree_return_inv _ _ _ _ _ _ _ H)
    as (fuel' & p & d & b & [= <-] & Hp & Hd & Hle & -> & Hlg).
  rewrite (get_dir_tree_checked host fuel path p depth d b lg Hp Hd Hle Hlg)
    in H.
  rewrite <- (get_dir_tree_checked host fuel (PyPath p) p (PyInt d) d b
                PyLogger eq_refl eq_refl Hle (or_intror eq_refl)) in H.
  apply get_dir_tree_cases in H; [|assumption].
  destruct H as [_ [(_ & info & Hinfo & ->) | [(_ & _ & -> & _)
    | [(_ & _ & -> & _) | (_ & _ & names & _ & H)]]]].
  - apply every_file_DirNode_intro. repeat constructor. simpl.
    eapply get_file_info_keys. exact Hinfo.
  - exact I.
  - exact I.
  - pose (I := fun (es : list Path) (tree : @DirTree F) =>
                 Forall (fun kv => every_file (fun m => NoDup (keys m))
                                              (snd kv)) tree).
    apply every_file_DirNode_intro.
    apply (for_entries_invariant I) in H; [exact H | | | |].
    + intros ent rest tree l subtree HI _ Hrec.
      apply Forall_dict_set; [exact HI|]. simpl snd.
      eapply IH. exact Hrec.
    + intros ent rest tree l info HI _ _ Hinfo.
      apply Forall_dict_set; [exact HI|]. simpl.
      eapply get_file_info_keys. exact Hinfo.
    + intros ent rest tree HI _ _. exact HI.
    + constructor.
Qed.

(* ------------------------------------------------------------------ *)
(** ** Kinds of the entries *)
(* ------------------------------------------------------------------ *)

Section Kinds.

(** At any one moment an entry is not both a directory and a regular
    file. *)
Hypothesis kinds_exclusive :
  forall p, h_is_dir host p = true -> h_is_file host p = false.

Lemma get_dir_tree_kinds fuel :
  forall p d b logs (t : @DirTree F),
    -1 <= d ->
    get_dir_tree host fuel (PyPath p) (PyInt d) (PyBool b) PyLogger
    = (logs, Return t) ->
    h_is_file host p = false ->
    tree_kinds_ok host p t.
Proof.
  induction fuel as [|fuel IH]; intros p d b logs t Hle H Hnf;
    [discriminate|].
  apply get_dir_tree_cases in H; [|assumption].
  destruct H as [_ [(Hf & _) | [(_ & _ & -> & _)
    | [(_ & _ & -> & _) | (_ & Hd & names & _ & H)]]]].
  - congruence.
  - constructor.
  - constructor.
  - pose (I := fun (es : list Path) (tree : @DirTree F) =>
                 (forall e, In e es -> e = path_child p (path_name e)) /\
                 tree_kinds_ok host p tree).
    apply (for_entries_invariant I) in H; [apply H | | | |].
    + intros entry rest tree l subtree [Hes Ht] Hdir Hrec. split.
      * intros e He. apply Hes. now right.
      * apply Forall_dict_set; [assumption|]. simpl.
        rewrite <- (Hes entry) by now left.
        apply entry_kind_ok_DirNode. split; [assumption|].
        eapply IH; [|exact Hrec|auto].
        destruct (0 <? d) eqn:Hpos; [apply Z.ltb_lt in Hpos|]; lia.
    + intros entry rest tree l info [Hes Ht] _ Hfile _. split.
      * intros e He. apply Hes. now right.
      * apply Forall_dict_set; [assumption|]. simpl.
        rewrite <- (Hes entry) by now left. exact Hfile.
    + intros entry rest tree [Hes Ht] _ _. split; [|assumption].
      intros e He. apply Hes. now right.
    + split; [|constructor].
      intros e He. apply In_sorted, in_map_iff in He.
      destruct He as (name & <- & _). now rewrite path_name_child.
Qed.

(** The records a run of the loop logs for the entries it skips. *)
Lemma for_entries_logs_skipped recurse hr entries :
  forall tree logs (t : @DirTree F) entry,
    for_entries host recurse hr entries tree = (logs, Return t) ->
    In entry entries ->
    h_is_dir host entry = false -> h_is_file host entry = false ->
    In (DEBUG, "Skipping non-file, non-dir entry: " +++ path_str entry) logs.
Proof.
  induction entries as [|e rest IH]; intros tree logs t entry H Hin Hd Hf;
    [destruct Hin|].
  simpl in H. destruct Hin as [->|Hin].
  - rewrite Hd, Hf in H. apply bind_inv in H.
    destruct H as (l1 & [] & l2 & Hlog & _ & ->).
    injection Hlog as <-. now left.
  - destruct (h_is_dir host e); [|destruct (h_is_file host e)];
      apply bind_inv in H; destruct H as (l1 & a & l2 & _ & Hrest & ->);
      apply in_or_app; right; eapply IH; eauto.
Qed.

End Kinds.

End Traversal.

(* ------------------------------------------------------------------ *)
(** ** The depth law *)
(* ------------------------------------------------------------------ *)

Section DepthLaw.

Context {F : Type}.
Variable host : @Host F.

(** Checked arguments in any admissible form behave as a [Path], an
    [int], a [bool] and the module logger do. *)
Lemma get_dir_tree_normal fuel path p depth d b lg :
  as_path path = Some p -> as_int depth = Some d -> -1 <= d ->
  logger_ok lg ->
  get_dir_tree host fuel path depth (PyBool b) lg
  = get_dir_tree host fuel (PyPath p) (PyInt d) (PyBool b) PyLogger.
Proof.
  intros Hp Hd Hle Hlg. destruct fuel as [|fuel]; [reflexivity|].
  rewrite (get_dir_tree_checked host fuel path p depth d b lg Hp Hd Hle Hlg).
  rewrite (get_dir_tree_checked host fuel (PyPath p) p (PyInt d) d b PyLogger
             eq_refl eq_refl Hle (or_intror eq_refl)).
  reflexivity.
Qed.

Lemma truncate_S n (t : @DirTree F) :
  truncate (S n) t = map (fun kv => (fst kv, truncate_entry n (snd kv))) t.
Proof.
  simpl. apply map_ext. intros [k [m|c]]; reflexivity.
Qed.

Lemma truncate_dict_set n (tree : @DirTree F) k e :
  truncate (S n) (dict_set tree k e)
  = dict_set (truncate (S n) tree) k (truncate_entry n e).
Proof.
  rewrite !truncate_S.
  induction tree as [|[k' e'] tree IH]; simpl; [reflexivity|].
  destruct (String.eqb k' k); simpl; [reflexivity|]. now rewrite IH.
Qed.

Lemma for_entries_truncate n recF recN hr entries :
  (forall entry l st,
     h_is_dir host entry = true -> recF entry = (l, Return st) ->
     exists l', recN entry = (l', Return (truncate n st))) ->
  forall tree logs t,
    for_entries host recF hr entries tree = (logs, Return t) ->
    exists logs',
      for_entries host recN hr entries (truncate (S n) tree)
      = (logs', Return (truncate (S n) t)).
Proof.
  intros Hrec.
  induction entries as [|entry rest IH]; intros tree logs t;
    cbn [for_entries].
  - intros [= _ <-]. now exists [].
  - destruct (h_is_dir host entry) eqn:Hd.
    + intros H. apply bind_inv in H.
      destruct H as (l1 & st & l2 & HF & Hrest & _).
      destruct (Hrec _ _ _ Hd HF) as [l1' HN].
      rewrite or_empty in Hrest. apply IH in Hrest.
      destruct Hrest as [l2' Hrest].
      rewrite truncate_dict_set in Hrest. unfold truncate_entry in Hrest.
      exists (l1' ++ l2'). rewrite HN, bind_return, or_empty, Hrest.
      reflexivity.
    + destruct (h_is_file host entry) eqn:Hf.
      * intros H. apply bind_inv in H.
        destruct H as (l1 & info & l2 & Hinfo & Hrest & _).
        apply IH in Hrest. destruct Hrest as [l2' Hrest].
        rewrite truncate_dict_set in Hrest. unfold truncate_entry in Hrest.
        exists (l1 ++ l2'). rewrite Hinfo, bind_return, Hrest.
        reflexivity.
      * intros H. apply bind_inv in H.
        destruct H as (l1 & [] & l2 & Hlog & Hrest & _).
        apply IH in Hrest. destruct Hrest as [l2' Hrest].
        exists (l1 ++ l2'). rewrite Hlog, bind_return, Hrest.
        reflexivity.
Qed.

Hypothesis kinds_exclusive :
  forall p, h_is_dir host p = true -> h_is_file host p = false.

Lemma get_dir_tree_truncate (N : nat) :
  forall fuel p b logs (t : @DirTree F),
    h_is_file host p = false ->
    get_dir_tree host fuel (PyPath p) (PyInt (-1)) (PyBool b) PyLogger
    = (logs, Return t) ->
    exists logs',
      get_dir_tree host (S N) (PyPath p) (PyInt (Z.of_nat N)) (PyBool b)
                   PyLogger
      = (logs', Return (truncate N t)).
Proof.
  induction N as [|n IH]; intros fuel p b logs t Hnf H;
    (destruct fuel as [|fuel]; [discriminate|]);
    apply get_dir_tree_cases in H; try lia;
    destruct H as [He H];
    match goal with
    | |- context [get_dir_tree host (S ?f) (PyPath p) (PyInt ?d)] =>
        rewrite (get_dir_tree_checked host f (PyPath p) p (PyInt d) d b
                   PyLogger eq_refl eq_refl ltac:(lia) (or_intror eq_refl))
    end;
    rewrite He, Hnf; simpl negb; cbv iota.
  - now exists [].
  - replace (Z.of_nat (S n) =? 0) with false by (symmetry; apply Z.eqb_neq; lia).
    replace (if 0 <? Z.of_nat (S n) then Z.of_nat (S n) - 1 else -1)
      with (Z.of_nat n)
      by (replace (0 <? Z.of_nat (S n)) with true
            by (symmetry; apply Z.ltb_lt; lia); lia).
    destruct H as [(Hf & _) | [(_ & Hz & _)
      | [(_ & _ & -> & e & Hl & _) | (_ & _ & names & Hl & H)]]];
      [congruence | lia | |]; rewrite Hl.
    + eexists. reflexivity.
    + change (@nil (string * @entry F)) with (truncate (S n) (@nil (string * @entry F))).
      eapply for_entries_truncate; [|exact H].
      intros entry l st Hd Hrec. simpl in Hrec.
      eapply IH; [|exact Hrec]. auto.
Qed.

End DepthLaw.

(* ------------------------------------------------------------------ *)
(** ** What the traversal absorbs *)
(* ------------------------------------------------------------------ *)

Section Absorption.

Context {F : Type}.
Variable host : @Host F.




(** Listing a directory fails with a permission error or not at all. *)
Hypothesis listing_fails_on_permission_only :
  forall p c e,
    h_is_dir host p = true -> h_listdir host p = inl (c, e) ->
    c = PermissionError.

(** An entry reported as a directory exists when the recursion reaches it. *)
Hypothesis directories_exist :
  forall p, h_is_dir host p = true -> h_exists host p = true.


End Absorption.

(* ------------------------------------------------------------------ *)
(** ** Strings and numbers in JSON text *)
(* ------------------------------------------------------------------ *)

Lemma append_assoc (a b c : string) : (a +++ b) +++ c = a +++ (b +++ c).
Proof. induction a; simpl; congruence. Qed.

Lemma append_nil_r (a : string) : a +++ EmptyString = a.
Proof. induction a; simpl; congruence. Qed.

Lemma length_append (a b : string) :
  String.length (a +++ b) = (String.length a + String.length b)%nat.
Proof. induction a; simpl; congruence. Qed.

Lemma read_string_escape_char (c : ascii) (tail : string) :
  read_string (escape_char c +++ tail)
  = option_map (fun p => (String c (fst p), snd p)) (read_string tail).
Proof.
  destruct c as [[] [] [] [] [] [] [] []]; reflexivity.
Qed.

Lemma read_string_escape (s rest : string) :
  read_string (escape s +++ String dquote rest) = Some (s, rest).
Proof.
  induction s as [|c s IH]; [reflexivity|].
  cbn [escape]. rewrite append_assoc, read_string_escape_char, IH.
  reflexivity.
Qed.

Lemma span_number_token (tok rest : string) :
  string_forallb is_num_char tok = true -> ends_number rest ->
  span_number (tok +++ rest) = (tok, rest).
Proof.
  intros Htok Hrest.
  induction tok as [|c tok IH]; cbn [String.append string_forallb] in *.
  - destruct rest as [|c rest]; [reflexivity|].
    cbn [ends_number span_number] in *. now rewrite Hrest.
  - apply andb_true_iff in Htok. destruct Htok as [Hc Htok].
    cbn [span_number]. now rewrite Hc, IH.
Qed.

Lemma uint_digits (d : Decimal.uint) :
  string_forallb is_digit (NilEmpty.string_of_uint d) = true.
Proof. induction d; simpl; auto. Qed.

Lemma str_of_int_shape (n : Z) :
  exists c s, str_of_int n = String c s /\ is_int_char c = true /\
              string_forallb is_digit s = true.
Proof.
  unfold str_of_int.
  assert (Hu : forall d, d <> Decimal.Nil ->
            exists c s, NilZero.string_of_uint d = String c s /\
                        is_digit c = true /\
                        string_forallb is_digit s = true).
  { intros d Hd. pose proof (uint_digits d) as H.
    destruct d; try congruence; simpl in *; eauto. }
  destruct n as [|p|p]; simpl.
  - exists "0"%char, EmptyString. auto.
  - destruct (Hu _ (DecimalPos.Unsigned.to_uint_nonnil p))
      as (c & s & -> & Hc & Hs).
    exists c, s. unfold is_int_char. now rewrite Hc.
  - destruct (Hu _ (DecimalPos.Unsigned.to_uint_nonnil p))
      as (c & s & -> & Hc & Hs).
    exists "-"%char, (String c s). simpl. now rewrite Hc, Hs.
Qed.

Lemma digits_int_chars (s : string) :
  string_forallb is_digit s = true -> string_forallb is_int_char s = true.
Proof.
  induction s as [|c s IH]; cbn [string_forallb]; [reflexivity|].
  intros H. apply andb_true_iff in H. destruct H as [Hc Hs].
  rewrite IH by assumption. unfold is_int_char. now rewrite Hc.
Qed.

Lemma int_chars_num_chars (s : string) :
  string_forallb is_int_char s = true -> string_forallb is_num_char s = true.
Proof.
  induction s as [|c s IH]; cbn [string_forallb]; [reflexivity|].
  intros H. apply andb_true_iff in H. destruct H as [Hc Hs].
  rewrite IH by assumption. unfold is_int_char in Hc. unfold is_num_char.
  apply orb_true_iff in Hc. destruct Hc as [-> | ->];
    rewrite ?orb_true_r, ?orb_true_l; reflexivity.
Qed.

Lemma str_of_int_int_chars (n : Z) :
  string_forallb is_int_char (str_of_int n) = true.
Proof.
  destruct (str_of_int_shape n) as (c & s & -> & Hc & Hs).
  cbn [string_forallb]. now rewrite Hc, digits_int_chars.
Qed.

Lemma read_number_int {F} (float_parse : string -> option F) (n : Z) :
  read_number float_parse (str_of_int n) = Some (JInt n).
Proof.
  unfold read_number. rewrite str_of_int_int_chars. unfold str_of_int.
  rewrite NilZero.isi.
  - simpl. now rewrite DecimalZ.of_to.
  - destruct n; simpl; try discriminate.
    intros [= H]. now apply (DecimalPos.Unsigned.to_uint_nonnil p).
  - destruct n; simpl; try discriminate.
    intros [= H]. now apply (DecimalPos.Unsigned.to_uint_nonnil p).
Qed.

Lemma skip_ws_head (c : ascii) (s : string) :
  is_ws c = false -> skip_ws (String c s) = String c s.
Proof. intros H. cbn [skip_ws]. now rewrite H. Qed.

Lemma skip_ws_spaces (n : nat) (s : string) :
  skip_ws (spaces n +++ s) = skip_ws s.
Proof. induction n; simpl; auto. Qed.

Lemma skip_ws_newline_indent (lvl : nat) (s : string) :
  skip_ws (newline_indent lvl +++ s) = skip_ws s.
Proof. unfold newline_indent. simpl. apply skip_ws_spaces. Qed.

Lemma num_char_not_ws (c : ascii) : is_num_char c = true -> is_ws c = false.
Proof.
  destruct c as [[] [] [] [] [] [] [] []]; vm_compute; intros; congruence.
Qed.

Lemma num_char_not_brace (c : ascii) :
  is_num_char c = true ->
  Ascii.eqb c "{" = false /\ Ascii.eqb c dquote = false.
Proof.
  destruct c as [[] [] [] [] [] [] [] []]; vm_compute; intros; split;
    congruence.
Qed.

(* ------------------------------------------------------------------ *)
(** ** The round trip through JSON text *)
(* ------------------------------------------------------------------ *)

Section RoundTrip.

Context {F : Type}.
Variable float_repr : F -> string.
Variable float_parse : string -> option F.

(** What is assumed of [float.__repr__] and of the way the reader reads
    a float: the text of a float is written with the characters of
    numbers, is not the text of an [int], and reads back as the float. *)
Hypothesis float_repr_num :
  forall x, string_forallb is_num_char (float_repr x) = true.
Hypothesis float_repr_not_int :
  forall x, string_forallb is_int_char (float_repr x) = false.
Hypothesis float_parse_repr :
  forall x, float_parse (float_repr x) = Some x.

Lemma pyobj_forall_ind (P : @pyobj F -> Prop) :
  (forall n, P (JInt n)) -> (forall x, P (JFloat x)) ->
  (forall s, P (JStr s)) ->
  (forall items, Forall (fun kv => P (snd kv)) items -> P (JDict items)) ->
  forall o, P o.
Proof.
  intros HInt HFloat HStr HDict. fix IH 1. intros [n|x|s|items].
  - apply HInt.
  - apply HFloat.
  - apply HStr.
  - apply HDict. induction items as [|[k v] items IHitems].
    + constructor.
    + constructor; [apply IH | apply IHitems].
Qed.

(** The text of a scalar: a token of number characters. *)
Lemma number_token_read (tok : string) (v : @pyobj F) :
  string_forallb is_num_char tok = true -> tok <> EmptyString ->
  read_number float_parse tok = Some v ->
  forall fuel rest, ends_number rest ->
    read_value float_parse (S fuel) (tok +++ rest) = Some (v, rest).
Proof.
  intros Hnum Hne Hread fuel rest Hrest.
  destruct tok as [|c tok]; [congruence|].
  pose proof Hnum as Hnum'. cbn [string_forallb] in Hnum'.
  apply andb_true_iff in Hnum'. destruct Hnum' as [Hc _].
  destruct (num_char_not_brace c Hc) as [Hb Hq].
  change (String c tok +++ rest) with (String c (tok +++ rest)).
  cbn [read_value]. rewrite Hb, Hq.
  change (String c (tok +++ rest)) with (String c tok +++ rest).
  rewrite (span_number_token _ _ Hnum Hrest), Hread. reflexivity.
Qed.

Lemma float_repr_nonempty x : float_repr x <> EmptyString.
Proof.
  intros H. pose proof (float_repr_not_int x) as Hn. rewrite H in Hn.
  discriminate.
Qed.

Lemma str_of_int_nonempty n : str_of_int n <> EmptyString.
Proof. destruct (str_of_int_shape n) as (c & s & -> & _). discriminate. Qed.

(** The text of a value does not start with white space. *)
Lemma iterencode_head (o : @pyobj F) lvl :
  exists c s, iterencode float_repr o lvl = String c s /\ is_ws c = false.
Proof.
  destruct o as [n|x|s|[|[k v] items]]; cbn [iterencode].
  - destruct (str_of_int_shape n) as (c & s & -> & Hc & _).
    exists c, s. split; [reflexivity|]. apply num_char_not_ws.
    unfold is_int_char in Hc. unfold is_num_char.
    apply orb_true_iff in Hc. destruct Hc as [-> | ->];
      rewrite ?orb_true_r, ?orb_true_l; reflexivity.
  - pose proof (float_repr_num x) as Hn.
    destruct (float_repr x) as [|c s] eqn:E;
      [now apply float_repr_nonempty in E|].
    exists c, s. split; [reflexivity|]. apply num_char_not_ws.
    cbn [string_forallb] in Hn. apply andb_true_iff in Hn. tauto.
  - eexists _, _. split; [reflexivity|reflexivity].
  - eexists _, _. split; [reflexivity|reflexivity].
  - eexists _, _. split; [reflexivity|reflexivity].
Qed.

Lemma skip_ws_iterencode (o : @pyobj F) lvl rest :
  skip_ws (iterencode float_repr o lvl +++ rest)
  = iterencode float_repr o lvl +++ rest.
Proof.
  destruct (iterencode_head o lvl) as (c & s & -> & Hc).
  now apply skip_ws_head.
Qed.

Lemma encode_items_cons (enc : @pyobj F -> string) sep k v rest :
  encode_items enc sep ((k, v) :: rest)
  = encode_basestring k +++ ": " +++ enc v +++
    match rest with
    | [] => EmptyString
    | _ => sep +++ encode_items enc sep rest
    end.
Proof. reflexivity. Qed.

Lemma skip_ws_encode_items (enc : @pyobj F -> string) sep items r :
  items <> [] ->
  skip_ws (encode_items enc sep items +++ r)
  = encode_items enc sep items +++ r.
Proof.
  destruct items as [|[k v] tl]; [congruence|]. intros _.
  rewrite encode_items_cons. unfold encode_basestring.
  cbn [String.append]. now apply skip_ws_head.
Qed.

Lemma encode_items_head (enc : @pyobj F -> string) sep items r :
  items <> [] ->
  exists text, encode_items enc sep items +++ r = String dquote text.
Proof.
  destruct items as [|[k v] tl]; [congruence|]. intros _.
  rewrite encode_items_cons. unfold encode_basestring.
  cbn [String.append]. eauto.
Qed.

Lemma skip_ws_space (s : string) : skip_ws (String " " s) = skip_ws s.
Proof. reflexivity. Qed.

Lemma read_members_items rv lvl :
  forall items,
    items <> [] ->
    (forall k v, In (k, v) items ->
       forall rest, ends_number rest ->
         rv (iterencode float_repr v (S lvl) +++ rest) = Some (v, rest)) ->
    forall fuel rest,
      (List.length items <= fuel)%nat ->
      read_members rv fuel
        (encode_items (fun v => iterencode float_repr v (S lvl))
           ("," +++ newline_indent (S lvl)) items
         +++ newline_indent lvl +++ "}" +++ rest)
      = Some (items, rest).
Proof.
  induction items as [|[k v] tl IH]; [congruence|].
  intros _ Hrv fuel rest Hfuel.
  destruct fuel as [|fuel]; [simpl in Hfuel; lia|].
  rewrite encode_items_cons. unfold encode_basestring.
  rewrite !append_assoc. cbn [String.append]. rewrite !append_assoc.
  cbn [String.append].
  cbn [read_members]. rewrite Ascii.eqb_refl, read_string_escape.
  rewrite (skip_ws_head ":"%char) by reflexivity.
  rewrite Ascii.eqb_refl, skip_ws_space, skip_ws_iterencode.
  destruct tl as [|kv tl'].
  - cbn [String.append].
    rewrite (Hrv k v (or_introl eq_refl)) by reflexivity.
    rewrite skip_ws_newline_indent, (skip_ws_head "}"%char) by reflexivity.
    reflexivity.
  - cbn [String.append].
    rewrite (Hrv k v (or_introl eq_refl)) by reflexivity.
    rewrite (skip_ws_head ","%char) by reflexivity.
    rewrite Ascii.eqb_refl, append_assoc, skip_ws_newline_indent.
    rewrite skip_ws_encode_items by discriminate.
    change (String "," (newline_indent (S lvl)))
      with ("," +++ newline_indent (S lvl)).
    change (String "}" rest) with ("}" +++ rest).
    rewrite IH.
    + reflexivity.
    + discriminate.
    + intros k0 v0 Hin. apply (Hrv k0). now right.
    + simpl in *. lia.
Qed.

Lemma weight_dict_bounds (items : list (string * @pyobj F)) :
  (List.length items < weight (JDict items))%nat /\
  forall k v, In (k, v) items -> (weight v < weight (JDict items))%nat.
Proof.
  induction items as [|[k v] tl [IHlen IHin]].
  - simpl. split; [lia | tauto].
  - assert (E : weight (JDict ((k, v) :: tl))
                = (S (weight v) + weight (JDict tl))%nat) by (simpl; lia).
    rewrite E. clear E.
    split; [simpl List.length; lia|].
    intros k0 v0 [[= -> ->]|Hin]; [lia|].
    specialize (IHin _ _ Hin). lia.
Qed.

Lemma read_value_object fuel s' :
  read_value float_parse (S fuel) (String "{" s')
  = match skip_ws s' with
    | String c' s'' =>
        if Ascii.eqb c' "}" then Some (JDict [], s'')
        else
          option_map (fun r => (JDict (dict_of_pairs (fst r)), snd r))
            (read_members (read_value float_parse fuel) fuel (String c' s''))
    | EmptyString => None
    end.
Proof. reflexivity. Qed.

Lemma unique_keys_JDict (items : list (string * @pyobj F)) :
  unique_keys (JDict items) <->
  NoDup (keys items) /\ Forall (fun kv => unique_keys (snd kv)) items.
Proof.
  simpl. apply and_iff_compat_l.
  induction items as [|[k v] items IH]; simpl.
  - intuition.
  - rewrite IH. split.
    + intros [Hv Hi]. now constructor.
    + intros H. inversion H; subst. tauto.
Qed.

Lemma read_value_iterencode :
  forall (o : @pyobj F) fuel lvl rest,
    unique_keys o ->
    (weight o <= fuel)%nat -> ends_number rest ->
    read_value float_parse fuel (iterencode float_repr o lvl +++ rest)
    = Some (o, rest).
Proof.
  induction o as [n|x|s|items IH] using pyobj_forall_ind;
    intros fuel lvl rest Huniq Hfuel Hrest;
    (destruct fuel as [|fuel]; [simpl in Hfuel; lia|]).
  - cbn [iterencode]. apply number_token_read; [| | |assumption].
    + apply int_chars_num_chars, str_of_int_int_chars.
    + apply str_of_int_nonempty.
    + apply read_number_int.
  - cbn [iterencode]. apply number_token_read; [| | |assumption].
    + apply float_repr_num.
    + apply float_repr_nonempty.
    + unfold read_number.
      now rewrite float_repr_not_int, float_parse_repr.
  - cbn [iterencode]. unfold encode_basestring.
    cbn [String.append]. rewrite append_assoc. cbn [String.append].
    cbn [read_value].
    change (Ascii.eqb dquote "{") with false. cbv iota.
    rewrite Ascii.eqb_refl, read_string_escape. reflexivity.
  - destruct items as [|kv tl]; [reflexivity|].
    apply unique_keys_JDict in Huniq. destruct Huniq as [Hnd Hsub].
    destruct (weight_dict_bounds (kv :: tl)) as [Hlen Hw].
    cbn [iterencode]. cbn [String.append]. rewrite read_value_object.
    rewrite !append_assoc, skip_ws_newline_indent.
    rewrite skip_ws_encode_items by discriminate.
    pose proof (read_members_items (read_value float_parse fuel) lvl
                  (kv :: tl)) as Hm.
    specialize (Hm ltac:(discriminate)).
    change (String "," (newline_indent (S lvl)))
      with ("," +++ newline_indent (S lvl)).
    destruct (encode_items_head (fun v => iterencode float_repr v (S lvl))
                ("," +++ newline_indent (S lvl)) (kv :: tl)
                (newline_indent lvl +++ "}" +++ rest)
                ltac:(discriminate)) as [text Htext].
    assert (Hrv : forall k v, In (k, v) (kv :: tl) ->
              forall rest', ends_number rest' ->
                read_value float_parse fuel
                  (iterencode float_repr v (S lvl) +++ rest')
                = Some (v, rest')).
    { intros k v Hin rest' Hrest'.
      rewrite Forall_forall in IH, Hsub.
      apply (IH (k, v) Hin); [exact (Hsub (k, v) Hin) | | assumption].
      specialize (Hw k v Hin). cbn [snd]. lia. }
    specialize (Hm Hrv fuel rest ltac:(lia)).
    rewrite Htext in *. change (Ascii.eqb dquote "}") with false. cbv iota.
    rewrite Hm. cbn [option_map fst snd].
    now rewrite dict_of_pairs_nodup.
Qed.

Lemma weight_le_length (o : @pyobj F) :
  forall lvl, (weight o <= String.length (iterencode float_repr o lvl))%nat.
Proof.
  induction o as [n|x|s|items IH] using pyobj_forall_ind; intros lvl.
  - cbn [iterencode weight].
    destruct (str_of_int_shape n) as (c & s & -> & _). simpl. lia.
  - cbn [iterencode weight].
    destruct (float_repr x) eqn:E; [now apply float_repr_nonempty in E|].
    simpl. lia.
  - simpl. lia.
  - destruct items as [|kv tl]; [simpl; lia|].
    cbn [iterencode]. rewrite !length_append.
    assert (H : forall l sep lv,
               Forall (fun kv : string * @pyobj F =>
                         forall lvl, (weight (snd kv) <=
                           String.length (iterencode float_repr (snd kv) lvl))%nat) l ->
               (weight (JDict l) <=
                S (String.length
                     (encode_items (fun v => iterencode float_repr v lv)
                        sep l)))%nat).
    { clear. intros l sep lv Hl.
      induction Hl as [|[k v] l Hv Hl IHl]; [simpl; lia|].
      rewrite encode_items_cons, !length_append.
      assert (E : weight (JDict ((k, v) :: l))
                  = (S (weight v) + weight (JDict l))%nat) by (simpl; lia).
      rewrite E. specialize (Hv lv). simpl in Hv.
      unfold encode_basestring. simpl String.length.
      destruct l as [|kv' l'].
      - simpl. lia.
      - rewrite !length_append. lia. }
    specialize (H (kv :: tl) ("," +++ newline_indent (S lvl)) (S lvl) IH).
    simpl String.length at 1. lia.
Qed.

(** Reading the text [json.dumps] writes for a value gives the value. *)
Lemma loads_dumps (o : @pyobj F) :
  unique_keys o ->
  json_loads float_parse (iterencode float_repr o 0) = Some o.
Proof.
  intros Huniq. unfold json_loads.
  rewrite <- (append_nil_r (iterencode float_repr o 0)) at 2.
  rewrite skip_ws_iterencode, read_value_iterencode.
  - reflexivity.
  - exact Huniq.
  - apply weight_le_length.
  - exact I.
Qed.

Lemma entry_forall_ind (P : @entry F -> Prop) :
  (forall m, P (FileNode m)) ->
  (forall c, Forall (fun kv => P (snd kv)) c -> P (DirNode c)) ->
  forall e, P e.
Proof.
  intros HFile HDir. fix IH 1. intros [m|c].
  - apply HFile.
  - apply HDir. induction c as [|[k e] c IHc].
    + constructor.
    + constructor; [apply IH | apply IHc].
Qed.

Lemma every_file_DirNode (Q : @FileMetadata F -> Prop) (c : @DirTree F) :
  every_file Q (DirNode c) <-> Forall (fun kv => every_file Q (snd kv)) c.
Proof.
  simpl. induction c as [|[k e] c IH]; simpl.
  - intuition.
  - rewrite IH. split.
    + intros [He Hc]. now constructor.
    + intros H. inversion H; subst. tauto.
Qed.

(** A tree whose nodes have no key twice is, as Python holds it, a value
    whose dictionaries have no key twice. *)
Lemma unique_keys_obj_of_entry (e : @entry F) :
  every_dir sorted_unique e ->
  every_file (fun m => NoDup (keys m)) e ->
  unique_keys (obj_of_entry e).
Proof.
  induction e as [m|c IH] using entry_forall_ind; intros Hd Hf.
  - unfold obj_of_entry, obj_of_meta. apply unique_keys_JDict. split.
    + unfold keys in *. rewrite map_map. simpl. exact Hf.
    + apply Forall_forall. intros [k v] Hin. apply in_map_iff in Hin.
      destruct Hin as ([k' v'] & [= <- <-] & _). now destruct v'.
  - apply every_dir_DirNode in Hd. destruct Hd as [[Hnd _] Hd].
    apply every_file_DirNode in Hf.
    cbn [obj_of_entry]. apply unique_keys_JDict. split.
    + unfold keys in *. rewrite map_map.
      erewrite map_ext; [exact Hnd|]. now intros [k e].
    + rewrite Forall_forall in *. intros [k v] Hin.
      apply in_map_iff in Hin. destruct Hin as ([k' e'] & [= <- <-] & Hin).
      apply (IH _ Hin); [apply (Hd _ Hin) | apply (Hf _ Hin)].
Qed.

End RoundTrip.

(* ------------------------------------------------------------------ *)
(** ** Hosts given as a table *)
(* ------------------------------------------------------------------ *)

Section SnapshotFacts.

Context {F : Type}.
Variable t : @snapshot F.
Variable strftime : F -> string.

Lemma snapshot_kinds_exclusive p :
  h_is_dir (snapshot_host t strftime) p = true ->
  h_is_file (snapshot_host t strftime) p = false.
Proof. simpl. destruct (lookup (parts p) t) as [[| |]|]; congruence. Qed.




End SnapshotFacts.


(* ------------------------------------------------------------------ *)
(** ** Floats with an integral value *)
(* ------------------------------------------------------------------ *)

Lemma string_forallb_append f (a b : string) :
  string_forallb f (a +++ b) = string_forallb f a && string_forallb f b.
Proof.
  induction a as [|c a IH]; simpl; [reflexivity|].
  now rewrite IH, andb_assoc.
Qed.

Lemma int_char_not_point (c : ascii) :
  is_int_char c = true -> Ascii.eqb c "." = false.
Proof.
  destruct c as [[] [] [] [] [] [] [] []]; vm_compute; intros; congruence.
Qed.

Lemma strip_point_zero_token (tok : string) :
  string_forallb is_int_char tok = true ->
  strip_point_zero (tok +++ ".0") = Some tok.
Proof.
  induction tok as [|c tok IH]; [reflexivity|].
  cbn [string_forallb]. intros H. apply andb_true_iff in H.
  destruct H as [Hc Htok].
  cbn [String.append strip_point_zero String.eqb].
  rewrite (int_char_not_point c Hc). cbv iota.
  now rewrite IH.
Qed.

Lemma integral_repr_num x :
  string_forallb is_num_char (integral_repr x) = true.
Proof.
  unfold integral_repr. rewrite string_forallb_append.
  now rewrite int_chars_num_chars by apply str_of_int_int_chars.
Qed.

Lemma integral_repr_not_int x :
  string_forallb is_int_char (integral_repr x) = false.
Proof.
  unfold integral_repr. rewrite string_forallb_append.
  now rewrite str_of_int_int_chars.
Qed.

Lemma integral_parse_repr x : integral_parse (integral_repr x) = Some x.
Proof.
  unfold integral_parse, integral_repr.
  rewrite strip_point_zero_token by apply str_of_int_int_chars.
  pose proof (read_number_int integral_parse x) as H.
  unfold read_number in H. rewrite str_of_int_int_chars in H.
  destruct (NilZero.int_of_string (str_of_int x)); simpl in *; congruence.
Qed.

(* ------------------------------------------------------------------ *)
(** ** The recursion budget does not change a result *)
(* ------------------------------------------------------------------ *)

Section Budget.

Context {F : Type}.
Variable host : @Host F.

Lemma terminates_bind_inv {A B} (m : M A) (k : A -> M B) :
  terminates (bind m k) ->
  terminates m /\ forall l a, m = (l, Return a) -> terminates (k a).
Proof.
  unfold terminates, bind. destruct m as [l [a|e|]]; simpl; intros H.
  - split; [discriminate|]. now intros l' a' [= _ <-].
  - split; [discriminate|]. discriminate.
  - now destruct H.
Qed.

Lemma bind_ext_on {A B} (m : M A) (k k' : A -> M B) :
  (forall l a, m = (l, Return a) -> k' a = k a) -> bind m k' = bind m k.
Proof.
  unfold bind. destruct m as [l [a|e|]]; simpl; intros H; [|reflexivity..].
  now rewrite (H l a eq_refl).
Qed.

Lemma for_entries_ext recurse recurse' hr entries :
  (forall entry, terminates (recurse entry) ->
                 recurse' entry = recurse entry) ->
  forall tree : @DirTree F,
    terminates (for_entries host recurse hr entries tree) ->
    for_entries host recurse' hr entries tree
    = for_entries host recurse hr entries tree.
Proof.
  intros Hrec. induction entries as [|entry rest IH]; intros tree Ht;
    cbn [for_entries] in *; [reflexivity|].
  destruct (h_is_dir host entry).
  - apply terminates_bind_inv in Ht. destruct Ht as [Ht1 Ht2].
    rewrite (Hrec entry Ht1). apply bind_ext_on.
    intros l a Hm. apply IH. exact (Ht2 l a Hm).
  - destruct (h_is_file host entry);
      apply terminates_bind_inv in Ht; destruct Ht as [Ht1 Ht2];
      apply bind_ext_on; intros l a Hm; apply IH; exact (Ht2 l a Hm).
Qed.

(** A call that is over within a budget gives the same log and outcome
    within every larger budget. *)
Lemma get_dir_tree_budget (fuel : nat) :
  forall fuel' path depth hr lg,
    (fuel <= fuel')%nat ->
    terminates (get_dir_tree host fuel path depth hr lg) ->
    get_dir_tree host fuel' path depth hr lg
    = get_dir_tree host fuel path depth hr lg.
Proof.
  induction fuel as [|fuel IH]; intros fuel' path depth hr lg Hle Ht;
    [now destruct Ht|].
  destruct fuel' as [|fuel']; [lia|].
  cbn [get_dir_tree] in *.
  destruct (as_path path) as [p|]; [|reflexivity]. rewrite !bind_ret in *.
  destruct (as_int depth) as [d|]; [|reflexivity]. rewrite !bind_ret in *.
  destruct (d <? -1); [reflexivity|].
  destruct hr; try reflexivity. rewrite !bind_ret in *.
  destruct (if truthy lg then lg else PyLogger); try reflexivity.
  all: destruct (negb (h_exists host p)); [reflexivity|].
  all: destruct (h_is_file host p); [reflexivity|].
  all: destruct (d =? 0); [reflexivity|].
  all: destruct (h_listdir host p) as [[c e]|names]; [reflexivity|].
  all: apply for_entries_ext; [|exact Ht].
  all: intros entry Hent; apply IH; [lia | exact Hent].
Qed.

End Budget.

(* ------------------------------------------------------------------ *)
(** ** [human_readable_size] below one pebibyte *)
(* ------------------------------------------------------------------ *)

Lemma float_ltb_scaled (n e : Z) :
  e < 0 -> float_ltb (mkfloat n e) 1024 = (n <? 1024 * 2 ^ (- e)).
Proof.
  intros He. unfold float_ltb. cbn [fmant fexp].
  now replace (0 <=? e) with false by (symmetry; apply Z.leb_gt; lia).
Qed.

(** Below [1024 ^ 5] bytes the unit is the first one in which the size
    is below 1024, and the number printed is the size in that unit. *)
Lemma human_readable_size_below_pebibyte (n : Z) :
  (n < 1024 -> human_readable_size n = str_of_int n +++ " B") /\
  (forall k unit,
     In (k, unit) [(1, "KB"); (2, "MB"); (3, "GB"); (4, "TB")] ->
     1024 ^ k <= n < 1024 ^ (k + 1) ->
     human_readable_size n
     = format_1f (mkfloat n (- (10 * k))) +++ " " +++ unit).
Proof.
  split.
  - intros H. unfold human_readable_size.
    now replace (n <? 1024) with true by (symmetry; apply Z.ltb_lt; lia).
  - intros k unit Hin Hn.
    assert (Hrange : 1024 <= n < 2 ^ 50).
    { simpl in Hin.
      destruct Hin as [[= <- <-]|[[= <- <-]|[[= <- <-]|[[= <- <-]|[]]]]];
        simpl in Hn; simpl; lia. }
    unfold human_readable_size, float_of_int.
    replace (n <? 1024) with false by (symmetry; apply Z.ltb_ge; lia).
    replace (Z.abs n <? 2 ^ 53) with true
      by (symmetry; apply Z.ltb_lt; simpl in *; lia).
    cbn [scale_loop]. unfold fdiv_1024. cbn [fmant fexp].
    rewrite !float_ltb_scaled by lia.
    change (1024 * 2 ^ (- (0 - 10))) with (1024 ^ 2).
    change (1024 * 2 ^ (- (0 - 10 - 10))) with (1024 ^ 3).
    change (1024 * 2 ^ (- (0 - 10 - 10 - 10))) with (1024 ^ 4).
    change (1024 * 2 ^ (- (0 - 10 - 10 - 10 - 10))) with (1024 ^ 5).
    simpl in Hin.
    destruct Hin as [[= <- <-]|[[= <- <-]|[[= <- <-]|[[= <- <-]|[]]]]];
      change (1 + 1) with 2 in Hn; change (2 + 1) with 3 in Hn;
      change (3 + 1) with 4 in Hn; change (4 + 1) with 5 in Hn;
      change (1024 ^ 1) with 1024 in Hn;
      destruct (Z.ltb_spec n (1024 ^ 2)); try lia;
      destruct (Z.ltb_spec n (1024 ^ 3)); try lia;
      destruct (Z.ltb_spec n (1024 ^ 4)); try lia;
      destruct (Z.ltb_spec n (1024 ^ 5)); try lia;
      reflexivity.
Qed.

(* ================================================================== *)
(** * The claims *)
(* ================================================================== *)

(** C1 (the failing input): for a size of one pebibyte, [2 ^ 50] bytes,
    the loop of [human_readable_size] ends after its fourth division
    with the value 1024.0, a number of tebibytes, and the fall-through
    prints it with the label PB. *)
Theorem human_readable_size_pebibyte :
  human_readable_size (2 ^ 50) = "1024.0 PB".
Proof. vm_compute. reflexivity. Qed.



(** C3: on a directory, depth 0 gives the empty tree, and whenever the
    unlimited run returns a tree, the run with depth [N] returns that
    tree cut at level [N], within any budget above [N]: the top [N]
    levels are the same and the directories at level [N] are there
    with an empty node. *)
Theorem depth_law {F : Type} (host : @Host F) :
  (forall p, h_is_dir host p = true -> h_is_file host p = false) ->
  forall path p hr lg,
    as_path path = Some p -> logger_ok lg ->
    h_exists host p = true -> h_is_dir host p = true ->
    (forall fuel,
       get_dir_tree host (S fuel) path (PyInt 0) (PyBool hr) lg
       = ([], Return [])) /\
    (forall fuel logs t,
       get_dir_tree host fuel path (PyInt (-1)) (PyBool hr) lg
       = (logs, Return t) ->
       forall N fuel' : nat,
         (N < fuel')%nat ->
         exists logs',
           get_dir_tree host fuel' path (PyInt (Z.of_nat N)) (PyBool hr) lg
           = (logs', Return (truncate N t))).
Proof.
  intros Hexcl path p hr lg Hp Hlg He Hd.
  pose proof (Hexcl p Hd) as Hf. split.
  - intros fuel.
    rewrite (get_dir_tree_checked host fuel path p (PyInt 0) 0 hr lg
               Hp eq_refl ltac:(lia) Hlg), He, Hf.
    reflexivity.
  - intros fuel logs t H N fuel' Hfuel.
    rewrite (get_dir_tree_normal host fuel path p (PyInt (-1)) (-1) hr lg
               Hp eq_refl ltac:(lia) Hlg) in H.
    rewrite (get_dir_tree_normal host fuel' path p (PyInt (Z.of_nat N))
               (Z.of_nat N) hr lg Hp eq_refl ltac:(lia) Hlg).
    destruct (get_dir_tree_truncate host Hexcl N fuel p hr logs t Hf H)
      as [logs' HN].
    exists logs'. rewrite <- HN.
    apply get_dir_tree_budget; [lia|].
    unfold terminates. now rewrite HN.
Qed.

Section WithFloats.

Context {F : Type}.
Variable host : @Host F.
Variable float_repr : F -> string.
Variable float_parse : string -> option F.

Hypothesis float_repr_num :
  forall x, string_forallb is_num_char (float_repr x) = true.
Hypothesis float_repr_not_int :
  forall x, string_forallb is_int_char (float_repr x) = false.
Hypothesis float_parse_repr :
  forall x, float_parse (float_repr x) = Some x.

(** C4: in a tree [get_dir_tree] returns, the keys of every directory
    node are pairwise different and in case-insensitive ascending
    order, and reading the text [dir_tree_to_json] writes gives back,
    level by level, the same keys in the same order. *)
Theorem names_sorted_unique_and_kept fuel path depth hr lg logs t :
  get_dir_tree host fuel path depth hr lg = (logs, Return t) ->
  every_dir sorted_unique (DirNode t) /\
  option_map key_lists
    (json_loads float_parse (dir_tree_to_json float_repr t))
  = Some (key_lists (obj_of_tree t)).
Proof.
  intros H.
  pose proof (get_dir_tree_sorted host _ _ _ _ _ _ _ H) as Hs.
  split; [exact Hs|].
  unfold dir_tree_to_json.
  rewrite (loads_dumps float_repr float_parse float_repr_num
             float_repr_not_int float_parse_repr); [reflexivity|].
  apply unique_keys_obj_of_entry; [exact Hs|].
  eapply get_dir_tree_files. exact H.
Qed.

(** C7: reading the text [dir_tree_to_json] writes for a tree
    [get_dir_tree] returns gives back the tree as Python holds it: the
    same keys in the same order at every level, an [int] as an [int], a
    [float] as a [float], a [str] as a [str]. *)
Theorem json_round_trip fuel path depth hr lg logs t :
  get_dir_tree host fuel path depth hr lg = (logs, Return t) ->
  json_loads float_parse (dir_tree_to_json float_repr t)
  = Some (obj_of_tree t).
Proof.
  intros H. unfold dir_tree_to_json.
  apply (loads_dumps float_repr float_parse float_repr_num
           float_repr_not_int float_parse_repr).
  apply unique_keys_obj_of_entry.
  - eapply get_dir_tree_sorted. exact H.
  - eapply get_dir_tree_files. exact H.
Qed.

End WithFloats.

(** C8: with kinds that exclude each other, every entry of a returned
    tree sits at a regular file or at a directory of the host: a root
    that is a file gives its single file node, and below a root
    directory every file node is at a regular file and every directory
    node at a directory.  A child of the root that is neither is not a
    key of the tree, and the log holds the debug record of its
    skipping. *)
Theorem no_special_entries {F : Type} (host : @Host F) :
  (forall p, h_is_dir host p = true -> h_is_file host p = false) ->
  forall fuel path p depth hr lg logs t,
    as_path path = Some p ->
    get_dir_tree host fuel path depth hr lg = (logs, Return t) ->
    (h_is_file host p = true ->
     exists info, t = [(path_name p, FileNode info)]) /\
    (h_is_file host p = false ->
     tree_kinds_ok host p t /\
     forall d names name,
       as_int depth = Some d -> d <> 0 ->
       h_listdir host p = inr names -> In name names ->
       h_is_dir host (path_child p name) = false ->
       h_is_file host (path_child p name) = false ->
       ~ In name (keys t) /\
       In (DEBUG, "Skipping non-file, non-dir entry: "
                    +++ path_str (path_child p name)) logs).
Proof.
  intros Hexcl fuel path p depth hr lg logs t Hp H.
  destruct (get_dir_tree_return_inv host _ _ _ _ _ _ _ H)
    as (fuel' & p' & d & b & -> & Hp' & Hd & Hle & -> & Hlg).
  assert (p' = p) by congruence. subst p'.
  rewrite (get_dir_tree_normal host (S fuel') path p depth d b lg
             Hp Hd Hle Hlg) in H.
  pose proof (get_dir_tree_kinds host Hexcl _ _ _ _ _ _ Hle H) as Hkinds.
  apply get_dir_tree_cases in H; [|assumption].
  destruct H as [_ [(Hf & info & _ & ->) | [(Hf & Hz & -> & _)
    | [(Hf & _ & -> & e & Hl & _) | (Hf & Hz & names & Hl & H)]]]].
  - split; [eauto | congruence].
  - split; [congruence|]. intros _. split; [constructor|].
    intros d' names name Hd'. congruence.
  - split; [congruence|]. intros _. split; [constructor|].
    intros d' names name _ _ Hl'. congruence.
  - split; [congruence|]. intros _. split; [auto|].
    intros d' names' name _ _ Hl' Hin Hnd Hnf.
    assert (names' = names) by congruence. subst names'. split.
    + intros Hk. unfold keys in Hk. apply in_map_iff in Hk.
      destruct Hk as ([k e] & Hke & Hk). simpl in Hke. subst k.
      specialize (Hkinds Hf). unfold tree_kinds_ok in Hkinds.
      rewrite Forall_forall in Hkinds. specialize (Hkinds _ Hk).
      simpl in Hkinds. destruct e as [m|c]; simpl in Hkinds.
      * congruence.
      * destruct Hkinds as [Hdir _]. congruence.
    + eapply for_entries_logs_skipped; eauto.
      apply In_sorted, in_map. assumption.
Qed.

(** C9: a call with a depth [d >= 0] is over after at most [d + 1]
    nested calls, whatever the host answers, since the call on a
    subdirectory gets the depth [d - 1]; a call that is over within a
    budget gives the same result within every larger one; with depth
    -1 the call on a subdirectory gets -1 again, and on an endless
    chain of directories no budget is enough. *)
Theorem get_dir_tree_terminates :
  (forall F (host : @Host F) path depth d hr lg,
     as_int depth = Some d -> 0 <= d ->
     terminates (get_dir_tree host (S (Z.to_nat d)) path depth hr lg)) /\
  (forall F (host : @Host F) fuel p d b names,
     d <> 0 -> -1 <= d ->
     h_exists host p = true -> h_is_file host p = false ->
     h_listdir host p = inr names ->
     get_dir_tree host (S fuel) (PyPath p) (PyInt d) (PyBool b) PyLogger
     = for_entries host
         (fun entry =>
            get_dir_tree host fuel (PyPath entry)
              (PyInt (if 0 <? d then d - 1 else -1)) (PyBool b) PyLogger)
         b
         (sorted (fun q => lower (path_name q)) (map (path_child p) names))
         []) /\
  (forall F (host : @Host F) fuel fuel' path depth hr lg,
     (fuel <= fuel')%nat ->
     terminates (get_dir_tree host fuel path depth hr lg) ->
     get_dir_tree host fuel' path depth hr lg
     = get_dir_tree host fuel path depth hr lg) /\
  (forall F fuel p b,
     get_dir_tree (@endless_host F) fuel (PyPath p) (PyInt (-1)) (PyBool b)
                  PyLogger
     = ([], OutOfFuel)).
Proof.
  split; [|split; [|split]].
  - intros F host path depth d hr lg Hd Hpos.
    apply (get_dir_tree_terminates_within host _ path depth d); [assumption|].
    lia.
  - intros F host fuel p d b names Hz Hle He Hf Hl.
    rewrite (get_dir_tree_checked host fuel (PyPath p) p (PyInt d) d b
               PyLogger eq_refl eq_refl Hle (or_intror eq_refl)), He, Hf, Hl.
    replace (d =? 0) with false by (symmetry; now apply Z.eqb_neq).
    reflexivity.
  - intros F host fuel fuel' path depth hr lg Hle Ht.
    now apply get_dir_tree_budget.
  - intros F fuel p b. apply endless_never_returns.
Qed.

Section ArgumentErrors.

Context {F : Type}.
Variable host : @Host F.

Lemma no_arg_error_bind {A B} (m : M A) (k : A -> M B) :
  no_arg_error m -> (forall a, no_arg_error (k a)) -> no_arg_error (bind m k).
Proof.
  unfold no_arg_error, bind. intros Hm Hk.
  destruct (snd m) as [a|e|]; simpl in *; [apply Hk | exact Hm | exact I].
Qed.

Lemma no_arg_error_for_entries recurse hr entries :
  (forall entry, no_arg_error (recurse entry)) ->
  forall tree : @DirTree F,
    no_arg_error (for_entries host recurse hr entries tree).
Proof.
  intros Hrec. induction entries as [|entry rest IH]; intros tree; simpl.
  - exact I.
  - destruct (h_is_dir host entry).
    + apply no_arg_error_bind; auto.
    + destruct (h_is_file host entry).
      * apply no_arg_error_bind; auto.
        destruct (get_file_info_returns host entry hr) as [m Hm].
        unfold no_arg_error. now rewrite Hm.
      * apply no_arg_error_bind; [exact I | auto].
Qed.

Lemma get_dir_tree_no_arg_error fuel :
  forall p d b,
    -1 <= d ->
    no_arg_error
      (get_dir_tree host fuel (PyPath p) (PyInt d) (PyBool b) PyLogger).
Proof.
  induction fuel as [|fuel IH]; intros p d b Hle; [exact I|].
  rewrite (get_dir_tree_checked host fuel (PyPath p) p (PyInt d) d b PyLogger
             eq_refl eq_refl Hle (or_intror eq_refl)).
  destruct (h_exists host p); simpl negb; cbv iota; [|exact I].
  destruct (h_is_file host p).
  - apply no_arg_error_bind; [|intros; exact I].
    destruct (get_file_info_returns host p b) as [m Hm].
    unfold no_arg_error. now rewrite Hm.
  - destruct (d =? 0); [exact I|].
    destruct (h_listdir host p) as [[[] e]|names]; try exact I.
    apply no_arg_error_for_entries. intros entry. apply IH.
    destruct (0 <? d) eqn:Hpos; [|lia]. apply Z.ltb_lt in Hpos. lia.
Qed.

(** C10: a [bool] passes as depth, [True] as the depth 1 and [False] as
    the depth 0, and with the other arguments in order such a call
    raises neither [TypeError] nor [ValueError]; a [human_readable]
    that is not a [bool] raises [TypeError], whatever valid path and
    depth come with it. *)
Theorem bool_depth_accepted fuel path lg :
  (forall hr,
     get_dir_tree host fuel path (PyBool true) hr lg
     = get_dir_tree host fuel path (PyInt 1) hr lg /\
     get_dir_tree host fuel path (PyBool false) hr lg
     = get_dir_tree host fuel path (PyInt 0) hr lg) /\
  (forall p b hr,
     as_path path = Some p -> logger_ok lg ->
     no_arg_error (get_dir_tree host fuel path (PyBool b) (PyBool hr) lg)) /\
  (forall p depth d hr,
     as_path path = Some p -> as_int depth = Some d -> -1 <= d ->
     (forall b, hr <> PyBool b) ->
     get_dir_tree host (S fuel) path depth hr lg
     = ([], Raise (TypeError ("'human_readable' must be bool, got "
                                +++ type_repr hr)))).
Proof.
  split; [|split].
  - intros hr. destruct fuel; split; reflexivity.
  - intros p b hr Hp Hlg.
    rewrite (get_dir_tree_normal host fuel path p (PyBool b)
               (if b then 1 else 0) hr lg Hp eq_refl
               ltac:(destruct b; lia) Hlg).
    apply get_dir_tree_no_arg_error. destruct b; lia.
  - intros p depth d hr Hp Hd Hle Hnb. cbn [get_dir_tree].
    rewrite Hp, bind_ret, Hd, bind_ret.
    replace (d <? -1) with false by (symmetry; apply Z.ltb_ge; lia).
    destruct hr; try reflexivity. now destruct (Hnb b).
Qed.

End ArgumentErrors.

(* ================================================================== *)
(** * The claims on the directory [/srv] *)
(* ================================================================== *)

(** The unlimited run on [/srv]. *)
Lemma srv_run :
  get_dir_tree srv_host 4 (PyStr "/srv") (PyInt (-1)) (PyBool false) PyNone
  = (srv_logs, Return srv_tree).
Proof. vm_compute. reflexivity. Qed.


(** On [/srv], depth 0 gives the empty tree and depth 1 the tree cut at
    level 1. *)
Lemma depth_law_witness :
  get_dir_tree srv_host 1 (PyStr "/srv") (PyInt 0) (PyBool false) PyNone
  = ([], Return []) /\
  exists logs',
    get_dir_tree srv_host 2 (PyStr "/srv") (PyInt 1) (PyBool false) PyNone
    = (logs', Return (truncate 1 srv_tree)).
Proof.
  destruct (depth_law srv_host (snapshot_kinds_exclusive _ _)
              (PyStr "/srv") srv false PyNone eq_refl (or_introl eq_refl)
              eq_refl eq_refl) as [H0 HN].
  split.
  - exact (H0 0%nat).
  - exact (HN 4%nat srv_logs srv_tree srv_run 1%nat 2%nat ltac:(lia)).
Defined.

(** The tree of [/srv] has its names in order, [a.txt], [Build],
    [secret], and its text reads back with the same keys. *)
Lemma names_sorted_unique_and_kept_witness :
  every_dir sorted_unique (DirNode srv_tree) /\
  option_map key_lists
    (json_loads integral_parse (dir_tree_to_json integral_repr srv_tree))
  = Some (key_lists (obj_of_tree srv_tree)).
Proof.
  exact (names_sorted_unique_and_kept srv_host integral_repr integral_parse
           integral_repr_num integral_repr_not_int integral_parse_repr
           4%nat (PyStr "/srv") (PyInt (-1)) (PyBool false) PyNone
           srv_logs srv_tree srv_run).
Defined.



(** The text of the tree of [/srv] reads back as the tree. *)
Lemma json_round_trip_witness :
  json_loads integral_parse (dir_tree_to_json integral_repr srv_tree)
  = Some (obj_of_tree srv_tree).
Proof.
  exact (json_round_trip srv_host integral_repr integral_parse
           integral_repr_num integral_repr_not_int integral_parse_repr
           4%nat (PyStr "/srv") (PyInt (-1)) (PyBool false) PyNone
           srv_logs srv_tree srv_run).
Defined.

(** The socket [/srv/sock] is not in the tree of [/srv], and its
    skipping is logged. *)
Lemma no_special_entries_witness :
  tree_kinds_ok srv_host srv srv_tree /\
  (In "sock" (keys srv_tree) -> False) /\
  In (DEBUG, "Skipping non-file, non-dir entry: /srv/sock") srv_logs.
Proof.
  destruct (no_special_entries srv_host (snapshot_kinds_exclusive _ _)
              4%nat (PyStr "/srv") srv (PyInt (-1)) (PyBool false) PyNone
              srv_logs srv_tree eq_refl srv_run) as [_ H].
  destruct (H eq_refl) as [Hk Hs].
  split; [exact Hk|].
  exact (Hs (-1) ["secret"; "sock"; "Build"; "a.txt"] "sock" eq_refl
            ltac:(lia) eq_refl (or_intror (or_introl eq_refl))
            eq_refl eq_refl).
Defined.

(** The run on [/srv] with depth 2 is over within three nested calls. *)
Lemma get_dir_tree_terminates_witness :
  terminates (get_dir_tree srv_host 3 (PyStr "/srv") (PyInt 2)
                           (PyBool false) PyNone).
Proof.
  exact (proj1 get_dir_tree_terminates Z srv_host (PyStr "/srv") (PyInt 2) 2
               (PyBool false) PyNone eq_refl ltac:(lia)).
Defined.

(** [get_dir_tree("/srv", True, 1)]: the depth [True] passes, the
    [human_readable] 1 does not. *)
Lemma bool_depth_accepted_witness :
  get_dir_tree srv_host 1 (PyStr "/srv") (PyBool true) (PyInt 1) PyNone
  = ([], Raise (TypeError
                  "'human_readable' must be bool, got <class 'int'>")).
Proof.
  destruct (bool_depth_accepted srv_host 0%nat (PyStr "/srv") PyNone)
    as (_ & _ & H).
  exact (H srv (PyBool true) 1 (PyInt 1) eq_refl eq_refl ltac:(lia)
           ltac:(discriminate)).
Defined.

(* ================================================================== *)
(** * Further properties *)
(* ================================================================== *)

(* ------------------------------------------------------------------ *)
(** ** [human_readable_size]: the number printed *)
(* ------------------------------------------------------------------ *)

(** [round_shift n s] is a nearest integer to [n / 2 ^ s]. *)
Lemma round_shift_nearest (n s : Z) :
  0 <= n -> 0 < s ->
  2 * Z.abs (round_shift n s * 2 ^ s - n) <= 2 ^ s.
Proof.
  intros Hn Hs. unfold round_shift.
  rewrite Z.shiftr_div_pow2, Z.land_ones, Z.shiftl_mul_pow2 by lia.
  rewrite Z.mul_1_l.
  assert (Hpow : 2 ^ s = 2 * 2 ^ (s - 1)).
  { rewrite <- Z.pow_succ_r by lia. f_equal. lia. }
  assert (Hpos : 0 < 2 ^ (s - 1)) by (apply Z.pow_pos_nonneg; lia).
  pose proof (Z.div_mod n (2 ^ s) ltac:(lia)) as Hdm.
  pose proof (Z.mod_pos_bound n (2 ^ s) ltac:(lia)) as Hb.
  set (q := n / 2 ^ s) in *. set (r := n mod 2 ^ s) in *.
  set (h := 2 ^ (s - 1)) in *.
  destruct ((h <? r) || ((r =? h) && Z.odd q)) eqn:Hc.
  - assert (h <= r).
    { apply orb_true_iff in Hc. destruct Hc as [Hc|Hc].
      - apply Z.ltb_lt in Hc. lia.
      - apply andb_true_iff in Hc. destruct Hc as [Hc _].
        apply Z.eqb_eq in Hc. lia. }
    nia.
  - apply orb_false_iff in Hc. destruct Hc as [Hc _].
    apply Z.ltb_ge in Hc. nia.
Qed.

(** X1: below [1024 ^ 5] bytes [human_readable_size] takes the first
    unit in which the size is below 1024 and prints, with one decimal,
    a number of tenths nearest to the size in that unit; below 1024
    bytes it prints the number of bytes as it is. *)
Theorem human_readable_size_nearest_tenth (n : Z) :
  (n < 1024 -> human_readable_size n = str_of_int n +++ " B") /\
  (forall k unit,
     In (k, unit) [(1, "KB"); (2, "MB"); (3, "GB"); (4, "TB")] ->
     1024 ^ k <= n < 1024 ^ (k + 1) ->
     exists t,
       human_readable_size n
       = str_of_int (t / 10) +++ "." +++ str_of_int (t mod 10)
           +++ " " +++ unit /\
       2 * Z.abs (t * 1024 ^ k - 10 * n) <= 1024 ^ k).
Proof.
  destruct (human_readable_size_below_pebibyte n) as [HB Hunit].
  split; [exact HB|].
  intros k unit Hin Hn. rewrite (Hunit k unit Hin Hn).
  assert (Hk : 1 <= k <= 4).
  { simpl in Hin.
    destruct Hin as [[= <- _]|[[= <- _]|[[= <- _]|[[= <- _]|[]]]]]; lia. }
  assert (H0 : 0 < 1024 ^ k) by (apply Z.pow_pos_nonneg; lia).
  exists (round_shift (10 * n) (10 * k)).
  split.
  - unfold format_1f, tenths. cbn [fmant fexp].
    replace (n <? 0) with false by (symmetry; apply Z.ltb_ge; lia).
    replace (0 <=? - (10 * k)) with false by (symmetry; apply Z.leb_gt; lia).
    rewrite Z.abs_eq by lia. rewrite Z.opp_involutive.
    cbn [String.append]. now rewrite !append_assoc.
  - replace (1024 ^ k) with (2 ^ (10 * k))
      by (rewrite Z.pow_mul_r by lia; reflexivity).
    apply round_shift_nearest; lia.
Qed.

(** 1536 bytes are one and a half kilobytes. *)
Lemma human_readable_size_nearest_tenth_witness :
  exists t,
    human_readable_size 1536
    = str_of_int (t / 10) +++ "." +++ str_of_int (t mod 10) +++ " KB" /\
    2 * Z.abs (t * 1024 ^ 1 - 10 * 1536) <= 1024 ^ 1.
Proof.
  exact (proj2 (human_readable_size_nearest_tenth 1536) 1 "KB"
           (or_introl eq_refl) ltac:(simpl; lia)).
Defined.

(* ------------------------------------------------------------------ *)
(** ** The names in the tree of a directory *)
(* ------------------------------------------------------------------ *)

Section Children.

Context {F : Type}.
Variable host : @Host F.

Lemma In_keys_dict_set {V} (d : dict V) k v k' :
  In k' (keys (dict_set d k v)) <-> k' = k \/ In k' (keys d).
Proof.
  destruct (in_dec string_dec k (keys d)) as [Hin|Hnin].
  - rewrite keys_dict_set_old by assumption. split; [auto|].
    intros [->|H]; assumption.
  - rewrite keys_dict_set_new by assumption. rewrite in_app_iff. simpl.
    intuition.
Qed.

(** What the loop has put into the tree: the names of the entries
    visited that are a directory or a regular file. *)
Lemma for_entries_keys recurse hr entries :
  forall (tree : @DirTree F) logs t,
    for_entries host recurse hr entries tree = (logs, Return t) ->
    forall k,
      In k (keys t) <->
      In k (keys tree) \/
      exists entry, In entry entries /\ path_name entry = k /\
                    (h_is_dir host entry = true \/
                     h_is_file host entry = true).
Proof.
  induction entries as [|entry rest IH]; intros tree logs t H k;
    cbn [for_entries] in H.
  - injection H as _ <-. split; [auto|]. intros [H|(e & [] & _)]. exact H.
  - destruct (h_is_dir host entry) eqn:Hd;
      [|destruct (h_is_file host entry) eqn:Hf];
      apply bind_inv in H; destruct H as (l1 & a & l2 & _ & Hrest & _);
      apply IH with (k := k) in Hrest; rewrite Hrest; clear Hrest;
      rewrite ?In_keys_dict_set.
    + split.
      * intros [[->|H]|(e & He & Hn & Hk)];
          [right; exists entry; simpl; auto | auto
          | right; exists e; simpl; auto].
      * intros [H|(e & [<-|He] & Hn & Hk)]; eauto 8.
    + split.
      * intros [[->|H]|(e & He & Hn & Hk)];
          [right; exists entry; simpl; auto | auto
          | right; exists e; simpl; auto].
      * intros [H|(e & [<-|He] & Hn & Hk)]; eauto 8.
    + split.
      * intros [H|(e & He & Hn & Hk)];
          [auto | right; exists e; simpl; auto].
      * intros [H|(e & [<-|He] & Hn & Hk)]; eauto 8.
        destruct Hk; congruence.
Qed.

(** X2: the keys of the tree of a directory are exactly the names of
    its listing that are a directory or a regular file. *)
Theorem get_dir_tree_children fuel path p depth d hr lg logs t names :
  as_path path = Some p -> as_int depth = Some d -> d <> 0 ->
  h_is_file host p = false -> h_listdir host p = inr names ->
  get_dir_tree host fuel path depth hr lg = (logs, Return t) ->
  forall k,
    In k (keys t) <->
    In k names /\
    (h_is_dir host (path_child p k) = true \/
     h_is_file host (path_child p k) = true).
Proof.
  intros Hp Hd Hz Hf Hl H k.
  destruct (get_dir_tree_return_inv host _ _ _ _ _ _ _ H)
    as (fuel' & p' & d' & b & -> & Hp' & Hd' & Hle & -> & Hlg).
  assert (p' = p) by congruence. assert (d' = d) by congruence. subst p' d'.
  rewrite (get_dir_tree_normal host (S fuel') path p depth d b lg
             Hp Hd Hle Hlg) in H.
  apply get_dir_tree_cases in H; [|assumption].
  destruct H as [_ [(Hf' & _) | [(_ & Hz' & _)
    | [(_ & _ & _ & e & Hl' & _) | (_ & _ & names' & Hl' & H)]]]];
    try congruence.
  assert (names' = names) by congruence. subst names'.
  rewrite (for_entries_keys _ _ _ _ _ _ H k). simpl. split.
  - intros [[]|(entry & Hin & Hn & Hk)].
    apply In_sorted, in_map_iff in Hin. destruct Hin as (name & <- & Hin).
    rewrite path_name_child in Hn. subst name. auto.
  - intros [Hin Hk]. right. exists (path_child p k).
    split; [|split; [apply path_name_child | exact Hk]].
    apply In_sorted, in_map. exact Hin.
Qed.

End Children.

(* ------------------------------------------------------------------ *)
(** ** The leaves of a tree *)
(* ------------------------------------------------------------------ *)

Section Leaves.

Context {F : Type}.
Variable host : @Host F.

Lemma get_file_info_mode path hr logs (m : @FileMetadata F) :
  get_file_info host path hr = (logs, Return m) -> meta_of_mode hr m.
Proof.
  unfold get_file_info, meta_of_mode.
  destruct (as_path path) as [p|]; [|discriminate].
  rewrite bind_ret. destruct (negb (h_exists host p)).
  - intros [= _ <-]. now left.
  - destruct (h_stat host p) as [[c e]|st]; intros [= _ <-].
    + now left.
    + right. destruct hr; eexists; eexists; reflexivity.
Qed.

(** What holds of everything [get_file_info] returns in a mode holds of
    every file node of a tree built in that mode. *)
Lemma get_dir_tree_every_file (Q : @FileMetadata F -> Prop) b :
  (forall path logs m,
     get_file_info host path b = (logs, Return m) -> Q m) ->
  forall fuel path depth lg logs (t : @DirTree F),
    get_dir_tree host fuel path depth (PyBool b) lg = (logs, Return t) ->
    every_file Q (DirNode t).
Proof.
  intros HQ.
  induction fuel as [|fuel IH]; intros path depth lg logs t H;
    [discriminate|].
  destruct (get_dir_tree_return_inv host _ _ _ _ _ _ _ H)
    as (fuel' & p & d & b' & [= <-] & Hp & Hd & Hle & [= <-] & Hlg).
  rewrite (get_dir_tree_normal host (S fuel) path p depth d b lg
             Hp Hd Hle Hlg) in H.
  apply get_dir_tree_cases in H; [|assumption].
  destruct H as [_ [(_ & info & Hinfo & ->) | [(_ & _ & -> & _)
    | [(_ & _ & -> & _) | (_ & _ & names & _ & H)]]]].
  - apply every_file_DirNode_intro. repeat constructor. simpl.
    eapply HQ. exact Hinfo.
  - exact I.
  - exact I.
  - pose (Inv := fun (es : list Path) (tree : @DirTree F) =>
                 Forall (fun kv => every_file Q (snd kv)) tree).
    apply every_file_DirNode_intro.
    apply (for_entries_invariant host Inv) in H; [exact H | | | |].
    + intros ent rest tree l subtree HI _ Hrec.
      apply Forall_dict_set; [exact HI|]. simpl snd.
      eapply IH. exact Hrec.
    + intros ent rest tree l info HI _ _ Hinfo.
      apply Forall_dict_set; [exact HI|]. simpl.
      eapply HQ. exact Hinfo.
    + intros ent rest tree HI _ _. exact HI.
    + constructor.
Qed.

(** X3: every file node of a returned tree is empty or holds the size
    and the time of modification, as an [int] and a [float] in the raw
    mode and as two strings in the human-readable mode. *)
Theorem leaves_follow_the_mode fuel path depth b lg logs (t : @DirTree F) :
  get_dir_tree host fuel path depth (PyBool b) lg = (logs, Return t) ->
  every_file (meta_of_mode b) (DirNode t).
Proof.
  apply get_dir_tree_every_file. intros p l m. apply get_file_info_mode.
Qed.

Lemma no_warning_app l1 l2 :
  no_warning (l1 ++ l2) <-> no_warning l1 /\ no_warning l2.
Proof.
  unfold no_warning. split.
  - intros H. split; intros msg Hin; apply (H msg), in_app_iff; auto.
  - intros [H1 H2] msg Hin. apply in_app_iff in Hin.
    destruct Hin; [eapply H1 | eapply H2]; eassumption.
Qed.

Lemma get_file_info_quiet path hr logs (m : @FileMetadata F) :
  get_file_info host path hr = (logs, Return m) ->
  no_warning logs -> complete m.
Proof.
  unfold get_file_info, complete.
  destruct (as_path path) as [p|]; [|discriminate].
  rewrite bind_ret. destruct (negb (h_exists host p)).
  - intros [= <- _] Hq. exfalso. eapply Hq. left. reflexivity.
  - destruct (h_stat host p) as [[c e]|st]; intros [= <- <-] Hq.
    + exfalso. eapply Hq. left. reflexivity.
    + reflexivity.
Qed.

Lemma for_entries_quiet recurse hr entries :
  (forall entry l st,
     recurse entry = (l, Return st) -> no_warning l ->
     every_file complete (DirNode st)) ->
  forall (tree : @DirTree F) logs t,
    for_entries host recurse hr entries tree = (logs, Return t) ->
    no_warning logs ->
    Forall (fun kv => every_file complete (snd kv)) tree ->
    Forall (fun kv => every_file complete (snd kv)) t.
Proof.
  intros Hrec.
  induction entries as [|entry rest IH]; intros tree logs t H Hq Ht;
    cbn [for_entries] in H.
  - injection H as _ <-. exact Ht.
  - destruct (h_is_dir host entry);
      [|destruct (h_is_file host entry)];
      apply bind_inv in H; destruct H as (l1 & a & l2 & Hm & Hrest & ->);
      apply no_warning_app in Hq; destruct Hq as [Hq1 Hq2];
      apply (IH _ _ _ Hrest Hq2).
    + apply Forall_dict_set; [exact Ht|]. rewrite or_empty. simpl snd.
      eapply Hrec; eassumption.
    + apply Forall_dict_set; [exact Ht|]. simpl.
      eapply get_file_info_quiet; eassumption.
    + exact Ht.
Qed.

(** X4: a file node without metadata never comes silently: when the
    log of a returned call holds no warning, every file node of the
    tree holds the size and the time of modification. *)
Theorem empty_metadata_is_reported fuel :
  forall path depth hr lg logs (t : @DirTree F),
    get_dir_tree host fuel path depth hr lg = (logs, Return t) ->
    no_warning logs ->
    every_file complete (DirNode t).
Proof.
  induction fuel as [|fuel IH]; intros path depth hr lg logs t H Hq;
    [discriminate|].
  destruct (get_dir_tree_return_inv host _ _ _ _ _ _ _ H)
    as (fuel' & p & d & b & [= <-] & Hp & Hd & Hle & -> & Hlg).
  rewrite (get_dir_tree_normal host (S fuel) path p depth d b lg
             Hp Hd Hle Hlg) in H.
  apply get_dir_tree_cases in H; [|assumption].
  destruct H as [_ [(_ & info & Hinfo & ->) | [(_ & _ & -> & _)
    | [(_ & _ & -> & _) | (_ & _ & names & _ & H)]]]].
  - apply every_file_DirNode_intro. repeat constructor. simpl.
    eapply get_file_info_quiet; eassumption.
  - exact I.
  - exact I.
  - apply every_file_DirNode_intro.
    refine (for_entries_quiet _ _ _ _ _ _ _ H Hq (Forall_nil _)).
    intros entry l st Hrec Hl. eapply IH; eassumption.
Qed.

End Leaves.

(* ------------------------------------------------------------------ *)
(** ** A smaller depth; the checks of the arguments *)
(* ------------------------------------------------------------------ *)

Section Shallower.

Context {F : Type}.
Variable host : @Host F.

Hypothesis kinds_exclusive :
  forall p, h_is_dir host p = true -> h_is_file host p = false.

Lemma get_dir_tree_truncate_from (N : nat) :
  forall fuel p M b logs (t : @DirTree F),
    h_is_file host p = false ->
    M = -1 \/ Z.of_nat N <= M ->
    get_dir_tree host fuel (PyPath p) (PyInt M) (PyBool b) PyLogger
    = (logs, Return t) ->
    exists logs',
      get_dir_tree host (S N) (PyPath p) (PyInt (Z.of_nat N)) (PyBool b)
                   PyLogger
      = (logs', Return (truncate N t)).
Proof.
  induction N as [|n IH]; intros fuel p M b logs t Hnf HM H;
    (destruct fuel as [|fuel]; [discriminate|]);
    apply get_dir_tree_cases in H; try lia;
    destruct H as [He H];
    match goal with
    | |- context [get_dir_tree host (S ?f) (PyPath p) (PyInt ?d)] =>
        rewrite (get_dir_tree_checked host f (PyPath p) p (PyInt d) d b
                   PyLogger eq_refl eq_refl ltac:(lia) (or_intror eq_refl))
    end;
    rewrite He, Hnf; simpl negb; cbv iota.
  - now exists [].
  - replace (Z.of_nat (S n) =? 0) with false by (symmetry; apply Z.eqb_neq; lia).
    replace (if 0 <? Z.of_nat (S n) then Z.of_nat (S n) - 1 else -1)
      with (Z.of_nat n)
      by (replace (0 <? Z.of_nat (S n)) with true
            by (symmetry; apply Z.ltb_lt; lia); lia).
    destruct H as [(Hf & _) | [(_ & Hz & _)
      | [(_ & _ & -> & e & Hl & _) | (_ & _ & names & Hl & H)]]];
      [congruence | lia | |]; rewrite Hl.
    + eexists. reflexivity.
    + change (@nil (string * @entry F))
        with (truncate (S n) (@nil (string * @entry F))).
      eapply for_entries_truncate; [|exact H].
      intros entry l st Hd Hrec. simpl in Hrec.
      eapply (IH _ _ (if 0 <? M then M - 1 else -1)); [auto| |exact Hrec].
      destruct HM as [->|HM]; [now left|].
      right. replace (0 <? M) with true by (symmetry; apply Z.ltb_lt; lia).
      lia.
Qed.

(** X5: a smaller depth shows the top of what a larger depth shows:
    when the root is not a regular file and the call with depth [M],
    unlimited or not, returns a tree, the call with a depth [N] that
    is not larger returns that tree cut at level [N]; so a tree
    returned for a depth [M >= 0] has no entry below level [M]. *)
Theorem smaller_depth_gives_the_top fuel path p lg b M logs t :
  as_path path = Some p -> logger_ok lg ->
  h_is_file host p = false ->
  get_dir_tree host fuel path (PyInt M) (PyBool b) lg = (logs, Return t) ->
  (forall N : nat,
     M = -1 \/ Z.of_nat N <= M ->
     exists logs',
       get_dir_tree host (S N) path (PyInt (Z.of_nat N)) (PyBool b) lg
       = (logs', Return (truncate N t))) /\
  (0 <= M -> truncate (Z.to_nat M) t = t).
Proof.
  intros Hp Hlg Hnf H.
  destruct (get_dir_tree_return_inv host _ _ _ _ _ _ _ H)
    as (fuel' & p' & d & b' & -> & Hp' & [= <-] & Hle & _ & _).
  rewrite (get_dir_tree_normal host _ path p (PyInt M) M b lg
             Hp eq_refl Hle Hlg) in H.
  assert (Hcut : forall N : nat,
             M = -1 \/ Z.of_nat N <= M ->
             exists logs',
               get_dir_tree host (S N) path (PyInt (Z.of_nat N)) (PyBool b) lg
               = (logs', Return (truncate N t))).
  { intros N HN.
    rewrite (get_dir_tree_normal host _ path p (PyInt (Z.of_nat N))
               (Z.of_nat N) b lg Hp eq_refl ltac:(lia) Hlg).
    eapply get_dir_tree_truncate_from; eassumption. }
  split; [exact Hcut|].
  intros HM. destruct (Hcut (Z.to_nat M)) as [logs' H']; [lia|].
  rewrite (get_dir_tree_normal host _ path p (PyInt (Z.of_nat (Z.to_nat M)))
             (Z.of_nat (Z.to_nat M)) b lg Hp eq_refl ltac:(lia) Hlg) in H'.
  rewrite Z2Nat.id in H' by assumption.
  pose (f := Nat.max (S fuel') (S (Z.to_nat M))).
  assert (H1 : get_dir_tree host f (PyPath p) (PyInt M) (PyBool b) PyLogger
               = (logs, Return t)).
  { rewrite <- H. apply get_dir_tree_budget; [subst f; lia|].
    unfold terminates. now rewrite H. }
  assert (H2 : get_dir_tree host f (PyPath p) (PyInt M) (PyBool b) PyLogger
               = (logs', Return (truncate (Z.to_nat M) t))).
  { rewrite <- H'. apply get_dir_tree_budget; [subst f; lia|].
    unfold terminates. now rewrite H'. }
  congruence.
Qed.

End Shallower.

Section ArgumentsFirst.

Context {F : Type}.


End ArgumentsFirst.

(* ------------------------------------------------------------------ *)
(** ** The flag [human_readable]; the subtrees *)
(* ------------------------------------------------------------------ *)

Section Flag.

Context {F : Type}.
Variable host : @Host F.







End Flag.

Section Subtrees.

Context {F : Type}.
Variable host : @Host F.

(** X8: the tree of a directory is made of the trees of its
    subdirectories and the metadata of its files: under a name that is
    a directory stands what [get_dir_tree] returns for it with the
    next depth, under a name that is a regular file and no directory
    what [get_file_info] returns for it. *)
Theorem get_dir_tree_entries fuel path p depth d b lg logs t names :
  as_path path = Some p -> as_int depth = Some d -> d <> 0 ->
  h_is_file host p = false -> h_listdir host p = inr names ->
  get_dir_tree host fuel path depth (PyBool b) lg = (logs, Return t) ->
  forall k e,
    In (k, e) t ->
    (h_is_dir host (path_child p k) = true /\
     exists l st,
       get_dir_tree host fuel (PyPath (path_child p k))
         (PyInt (if 0 <? d then d - 1 else -1)) (PyBool b) lg
       = (l, Return st) /\
       e = DirNode st) \/
    (h_is_dir host (path_child p k) = false /\
     h_is_file host (path_child p k) = true /\
     exists l info,
       get_file_info host (PyPath (path_child p k)) b = (l, Return info) /\
       e = FileNode info).
Proof.
  intros Hp Hd Hz Hf Hl H.
  destruct (get_dir_tree_return_inv host _ _ _ _ _ _ _ H)
    as (fuel' & p' & d' & b' & -> & Hp' & Hd' & Hle & _ & Hlg).
  assert (p' = p) by congruence. assert (d' = d) by congruence. subst p' d'.
  rewrite (get_dir_tree_normal host (S fuel') path p depth d b lg
             Hp Hd Hle Hlg) in H.
  apply get_dir_tree_cases in H; [|assumption].
  destruct H as [_ [(Hf' & _) | [(_ & Hz' & _)
    | [(_ & _ & _ & e & Hl' & _) | (_ & _ & names' & Hl' & H)]]]];
    try congruence.
  assert (names' = names) by congruence. subst names'.
  set (d1 := if 0 <? d then d - 1 else -1) in *.
  assert (Hd1 : -1 <= d1).
  { subst d1. destruct (0 <? d) eqn:Hpos; [|lia].
    apply Z.ltb_lt in Hpos. lia. }
  pose (Inv := fun (es : list Path) (tree : @DirTree F) =>
    (forall q, In q es -> exists name, q = path_child p name) /\
    forall k e, In (k, e) tree ->
      (h_is_dir host (path_child p k) = true /\
       exists l st,
         get_dir_tree host (S fuel') (PyPath (path_child p k))
           (PyInt d1) (PyBool b) lg = (l, Return st) /\
         e = DirNode st) \/
      (h_is_dir host (path_child p k) = false /\
       h_is_file host (path_child p k) = true /\
       exists l info,
         get_file_info host (PyPath (path_child p k)) b = (l, Return info) /\
         e = FileNode info)).
  apply (for_entries_invariant host Inv) in H; [exact (proj2 H) | | | |].
  - intros ent rest tree l st [Hes HI] Hdir Hrec. split.
    { intros q Hq. apply Hes. now right. }
    intros k e Hin. apply In_dict_set in Hin.
    destruct Hin as [[= -> ->]|Hin]; [|now apply HI].
    destruct (Hes ent (or_introl eq_refl)) as [name ->].
    rewrite path_name_child. left. split; [exact Hdir|].
    exists l, st. split; [|reflexivity].
    rewrite (get_dir_tree_normal host (S fuel') (PyPath (path_child p name))
               (path_child p name)
               (PyInt d1) d1 b lg eq_refl eq_refl Hd1 Hlg).
    etransitivity; [|exact Hrec]. apply get_dir_tree_budget; [lia|].
    unfold terminates. now rewrite Hrec.
  - intros ent rest tree l info [Hes HI] Hdir Hfile Hinfo. split.
    { intros q Hq. apply Hes. now right. }
    intros k e Hin. apply In_dict_set in Hin.
    destruct Hin as [[= -> ->]|Hin]; [|now apply HI].
    destruct (Hes ent (or_introl eq_refl)) as [name ->].
    rewrite path_name_child. right. split; [exact Hdir|].
    split; [exact Hfile|]. now exists l, info.
  - intros ent rest tree [Hes HI] _ _. split; [|exact HI].
    intros q Hq. apply Hes. now right.
  - split; [|intros k e []].
    intros q Hq. apply In_sorted, in_map_iff in Hq.
    destruct Hq as (name & <- & _). now exists name.
Qed.

End Subtrees.

(* ------------------------------------------------------------------ *)
(** ** The script *)
(* ------------------------------------------------------------------ *)

Section ScriptFacts.

Context {F : Type}.
Variable host : @Host F.
Variable float_repr : F -> string.
Variable float_parse : string -> option F.

Hypothesis float_repr_num :
  forall x, string_forallb is_num_char (float_repr x) = true.
Hypothesis float_repr_not_int :
  forall x, string_forallb is_int_char (float_repr x) = false.
Hypothesis float_parse_repr :
  forall x, float_parse (float_repr x) = Some x.



Hypothesis listing_fails_on_permission_only :
  forall p c e,
    h_is_dir host p = true -> h_listdir host p = inl (c, e) ->
    c = PermissionError.

Hypothesis directories_exist :
  forall p, h_is_dir host p = true -> h_exists host p = true.


End ScriptFacts.

(* ================================================================== *)
(** * The further properties on the directory [/srv] *)
(* ================================================================== *)

(** The run on [/srv] with depth 1: the two directories are not
    opened, so nothing of what fails in them is met. *)
Lemma srv_run_depth_1 :
  get_dir_tree srv_host 2 (PyStr "/srv") (PyInt 1) (PyBool false) PyNone
  = ([(DEBUG, "Skipping non-file, non-dir entry: /srv/sock")],
     Return (truncate 1 srv_tree)).
Proof. vm_compute. reflexivity. Qed.

(** The run on [/srv] with depth 2 reaches all there is. *)
Lemma srv_run_depth_2 :
  get_dir_tree srv_host 3 (PyStr "/srv") (PyInt 2) (PyBool false) PyNone
  = (srv_logs, Return srv_tree).
Proof. vm_compute. reflexivity. Qed.


(** Of the four names [/srv] lists, the directory [Build] is a key of
    the tree. *)
Lemma get_dir_tree_children_witness :
  In "Build" (keys srv_tree) <->
  In "Build" ["secret"; "sock"; "Build"; "a.txt"] /\
  (h_is_dir srv_host (path_child srv "Build") = true \/
   h_is_file srv_host (path_child srv "Build") = true).
Proof.
  exact (get_dir_tree_children srv_host 4 (PyStr "/srv") srv (PyInt (-1))
           (-1) (PyBool false) PyNone srv_logs srv_tree
           ["secret"; "sock"; "Build"; "a.txt"]
           eq_refl eq_refl ltac:(lia) eq_refl eq_refl srv_run "Build").
Defined.

(** Under [Build] stands the tree of [/srv/Build]. *)
Lemma get_dir_tree_entries_witness :
  (h_is_dir srv_host (path_child srv "Build") = true /\
   exists l st,
     get_dir_tree srv_host 4 (PyPath (path_child srv "Build"))
       (PyInt (if 0 <? -1 then -1 - 1 else -1)) (PyBool false) PyNone
     = (l, Return st) /\
     DirNode [("c.txt", FileNode []); ("deep", DirNode [])] = DirNode st) \/
  (h_is_dir srv_host (path_child srv "Build") = false /\
   h_is_file srv_host (path_child srv "Build") = true /\
   exists l info,
     get_file_info srv_host (PyPath (path_child srv "Build")) false
     = (l, Return info) /\
     DirNode [("c.txt", FileNode []); ("deep", DirNode [])] = FileNode info).
Proof.
  exact (get_dir_tree_entries srv_host 4 (PyStr "/srv") srv (PyInt (-1))
           (-1) false PyNone srv_logs srv_tree
           ["secret"; "sock"; "Build"; "a.txt"]
           eq_refl eq_refl ltac:(lia) eq_refl eq_refl srv_run
           "Build" (DirNode [("c.txt", FileNode []); ("deep", DirNode [])])
           (or_intror (or_introl eq_refl))).
Defined.

(** The tree of [/srv] was built in the raw mode. *)
Lemma leaves_follow_the_mode_witness :
  every_file (meta_of_mode false) (DirNode srv_tree).
Proof.
  exact (leaves_follow_the_mode srv_host 4 (PyStr "/srv") (PyInt (-1))
           false PyNone srv_logs srv_tree srv_run).
Defined.

(** The run on [/srv] with depth 1 logs no warning, and its one file
    has its metadata. *)
Lemma empty_metadata_is_reported_witness :
  every_file complete (DirNode (truncate 1 srv_tree)).
Proof.
  apply (empty_metadata_is_reported srv_host 2 (PyStr "/srv") (PyInt 1)
           (PyBool false) PyNone
           [(DEBUG, "Skipping non-file, non-dir entry: /srv/sock")]
           (truncate 1 srv_tree) srv_run_depth_1).
  intros msg [H|[]]. discriminate H.
Defined.

(** On [/srv], depth 1 shows the top level of what depth 2 shows, and
    depth 2 shows no more than two levels. *)
Lemma smaller_depth_gives_the_top_witness :
  (exists logs',
     get_dir_tree srv_host 2 (PyStr "/srv") (PyInt 1) (PyBool false) PyNone
     = (logs', Return (truncate 1 srv_tree))) /\
  truncate 2 srv_tree = srv_tree.
Proof.
  destruct (smaller_depth_gives_the_top srv_host
              (snapshot_kinds_exclusive _ _) 3 (PyStr "/srv") srv PyNone
              false 2 srv_logs srv_tree eq_refl (or_introl eq_refl) eq_refl
              srv_run_depth_2) as [Hcut Hall].
  split.
  - apply (Hcut 1%nat). right. simpl. lia.
  - apply Hall. lia.
Defined.



